(** * Ramen rater: a shallow embedding of [src/index.js]

    The script is glue between three hosts: the JavaScript value world
    (property reads, string conversion, truthiness), the visual tree
    (the menu container, the five detail slots, the form) and the
    network ([fetch]).  Each host primitive the script calls is written
    out below as a function on an explicit page state; the script's own
    functions are then transcribed line by line on top of them, in a
    small state-and-exception monad, keeping their names.

    In the functions that keep the script's names a promise chain is
    run to its end where it is started, against the reply the remote
    source gives.  Further down each of them is split at [fetch], and a
    visit is modelled in which replies arrive when they arrive, other
    events having had their turn in between.  The bootstrap ([main],
    [addSubmitListener]) and the user's actions are modelled after the
    handlers, on the page together with the form element.

    The elements the script looks up in lines 6-12 are taken to be
    there.  Of the members of the form the script uses, [reset] is
    looked up on every submission through the form's named getter,
    which lets a control stand in its place; [addEventListener], used
    once at bootstrap, and the built-ins of the document are taken as
    the host provides them. *)

From Stdlib Require Import String Ascii List ZArith Bool Lia DecimalString.
Import ListNotations.
Local Open Scope string_scope.
Local Open Scope Z_scope.
Set Warnings "-register-all".

(** ** JavaScript values *)

Module JS.

(** Numbers are doubles.  [Int z] is the double nearest to the integer
    [z], which is [z] itself below 2^53; [Int 0] stands for both zeros,
    which convert and test alike.  [Float text] is any other number, a
    fraction or an infinity, given by the text Number::toString yields
    for it: the script does nothing with a number but test and print
    it, and such a number is never zero. *)
Inductive number :=
| NaN
| Int (z : Z)
| Float (text : string).

(** What [response.json()] can resolve to, together with [undefined]:
    no functions, symbols or accessors.  An object is its list of own
    properties in insertion order, keys distinct. *)
Inductive value :=
| VUndefined
| VNull
| VBool (b : bool)
| VNum (n : number)
| VStr (s : string)
| VArr (elems : list value)
| VObj (props : list (string * value)).

Inductive error :=
| TypeError
| SyntaxError
| Error (message : string).

(** Completion of an expression: a value or a thrown exception. *)
Inductive completion (A : Type) :=
| Normal (a : A)
| Throw (e : error).
Arguments Normal {A} a.
Arguments Throw {A} e.

Definition cbind {A B} (c : completion A) (k : A -> completion B) : completion B :=
  match c with
  | Normal a => k a
  | Throw e => Throw e
  end.

Fixpoint lookup (k : string) (props : list (string * value)) : option value :=
  match props with
  | [] => None
  | (k', v) :: rest => if String.eqb k k' then Some v else lookup k rest
  end.

(** [v.k] for a property name [k] that no built-in prototype defines
    (the script reads [image], [name], [id], [restaurant], [rating],
    [comment]): own property of an object, [undefined] on every other
    value that can be boxed, a TypeError on [undefined] and [null]. *)
Definition Get (v : value) (k : string) : completion value :=
  match v with
  | VUndefined | VNull => Throw TypeError
  | VObj props =>
      match lookup k props with
      | Some x => Normal x
      | None => Normal VUndefined
      end
  | _ => Normal VUndefined
  end.

(** [!v] is [negb (truthy v)]. *)
Definition truthy (v : value) : bool :=
  match v with
  | VUndefined | VNull => false
  | VBool b => b
  | VNum NaN => false
  | VNum (Int z) => negb (z =? 0)
  | VNum (Float _) => true
  | VStr s => negb (String.eqb s "")
  | VArr _ | VObj _ => true
  end.

Definition decimal (z : Z) : string := NilZero.string_of_int (Z.to_int z).

(** An integer that is a double and its own shortest numeral. *)
Definition safe (z : Z) : bool := Z.abs z <? 2 ^ 53.

(** The double nearest to an integer [n] of 2^53 or more, ties going
    to the even significand: [Some (q, e)] for [q * 2^e] with
    [2^52 <= q < 2^53], [None] past the largest double. *)
Definition nearest (n : Z) : option (Z * Z) :=
  let e := Z.log2 n - 52 in
  let q := n / 2 ^ e in
  let r := n mod 2 ^ e in
  let half := 2 ^ (e - 1) in
  let q := if (half <? r) || ((r =? half) && Z.odd q) then q + 1 else q in
  let (q, e) := if q =? 2 ^ 53 then (2 ^ 52, e + 1) else (q, e) in
  if 971 <? e then None else Some (q, e).

(** The integers that round to the double [q * 2^e], as an interval:
    up to half the way to each neighbouring double, the half-way
    points counting when [q] is even. *)
Definition rounding_interval (q e : Z) : Z * Z :=
  let above := 2 ^ e in
  let below := if q =? 2 ^ 52 then 2 ^ (e - 1) else 2 ^ e in
  let lo2 := 2 * (q * 2 ^ e) - below in
  let hi2 := 2 * (q * 2 ^ e) + above in
  if Z.even q then ((lo2 + 1) / 2, hi2 / 2) else (lo2 / 2 + 1, (hi2 - 1) / 2).

(** The largest [p], from [p] on, such that a multiple of [10^p] lies
    in the interval. *)
Fixpoint trailing_zeros (fuel : nat) (lo hi p : Z) : Z :=
  match fuel with
  | O => p
  | S fuel' =>
      let t := 10 ^ (p + 1) in
      if (lo + t - 1) / t * t <=? hi then trailing_zeros fuel' lo hi (p + 1) else p
  end.

(** Of the multiples of [10^p] in the interval, the one closest to
    [d]; of two equally close, the one with the even digit string. *)
Definition closest (d lo hi p : Z) : Z :=
  let t := 10 ^ p in
  let under := d / t * t in
  let over := under + t in
  if under <? lo then over
  else if hi <? over then under
  else if d - under <? over - d then under
  else if over - d <? d - under then over
  else if Z.even (under / t) then under else over.

(** Exponent notation of an integer [c] whose digits end in [p] zeros. *)
Definition exponential (c p : Z) : string :=
  let n := Z.of_nat (String.length (decimal c)) in
  match decimal (c / 10 ^ p) with
  | EmptyString => EmptyString
  | String d EmptyString => String d ("e+" ++ decimal (n - 1))
  | String d rest => String d ("." ++ rest ++ "e+" ++ decimal (n - 1))
  end.

(** Number::toString of the double nearest to an integer [n] of 2^53
    or more: the shortest digit string that reads back as that double,
    in plain notation below 10^21 and in exponent notation from there. *)
Definition large_numeral (n : Z) : string :=
  match nearest n with
  | None => "Infinity"
  | Some (q, e) =>
      let (lo, hi) := rounding_interval q e in
      let p := trailing_zeros 400 lo hi 0 in
      let c := closest (q * 2 ^ e) lo hi p in
      if c <? 10 ^ 21 then decimal c else exponential c p
  end.

(** Number::toString, radix 10. *)
Definition Number_toString (n : number) : string :=
  match n with
  | NaN => "NaN"
  | Int z =>
      if safe z then decimal z
      else if z <? 0 then "-" ++ large_numeral (- z)
      else large_numeral z
  | Float text => text
  end.

Definition nullish (v : value) : bool :=
  match v with
  | VUndefined | VNull => true
  | _ => false
  end.

(** The abstract operation ToString.  A decoded object answers with
    [Object.prototype.toString] unless an own data property shadows it,
    in which case no primitive is reached and the conversion throws;
    an array is joined with commas, holes of [null] left empty. *)
Fixpoint ToString (v : value) : completion string :=
  match v with
  | VUndefined => Normal "undefined"
  | VNull => Normal "null"
  | VBool true => Normal "true"
  | VBool false => Normal "false"
  | VNum n => Normal (Number_toString n)
  | VStr s => Normal s
  | VArr elems =>
      (fix join (l : list value) : completion string :=
         match l with
         | [] => Normal ""
         | e :: rest =>
             cbind (if nullish e then Normal "" else ToString e) (fun s =>
             match rest with
             | [] => Normal s
             | _ :: _ => cbind (join rest) (fun r => Normal (s ++ "," ++ r))
             end)
         end) elems
  | VObj props =>
      match lookup "toString" props with
      | Some _ => Throw TypeError
      | None => Normal "[object Object]"
      end
  end.

(** Conversion to a nullable DOMString, as the [textContent] setter
    does: [null] and [undefined] both stand for the empty string. *)
Definition ToNullableString (v : value) : completion string :=
  if nullish v then Normal "" else ToString v.

End JS.
Import JS.

(** ** The page *)

(** The functions the script registers as listeners. *)
Inductive handler :=
| HandleClick
| HandleFormSubmit.

(** A child of the menu container.  [src], [alt] and [dataset_id] hold
    the content attributes [src], [alt] and [data-id] ([None] when the
    attribute is not there); [text] is the text a paragraph holds. *)
Record element := mkElement {
  tagName : string;
  src : option string;
  alt : option string;
  dataset_id : option string;
  classList : list string;
  listeners : list (string * handler);
  text : string
}.

(** [document.createElement(tag)] *)
Definition createElement (tag : string) : element :=
  mkElement tag None None None [] [] "".

Definition set_src (s : string) (e : element) : element :=
  mkElement (tagName e) (Some s) (alt e) (dataset_id e) (classList e) (listeners e) (text e).

Definition set_alt (s : string) (e : element) : element :=
  mkElement (tagName e) (src e) (Some s) (dataset_id e) (classList e) (listeners e) (text e).

Definition set_dataset_id (s : string) (e : element) : element :=
  mkElement (tagName e) (src e) (alt e) (Some s) (classList e) (listeners e) (text e).

Definition handler_eqb (a b : handler) : bool :=
  match a, b with
  | HandleClick, HandleClick | HandleFormSubmit, HandleFormSubmit => true
  | _, _ => false
  end.

(** [e.classList.add(token)]: a token already there is not added again. *)
Definition classList_add (token : string) (e : element) : element :=
  mkElement (tagName e) (src e) (alt e) (dataset_id e)
    (if existsb (String.eqb token) (classList e) then classList e
     else classList e ++ [token])
    (listeners e) (text e).

(** [e.addEventListener(type, callback)]: the same callback registered
    twice for one type is kept once. *)
Definition addEventListener (type : string) (callback : handler) (e : element) : element :=
  mkElement (tagName e) (src e) (alt e) (dataset_id e) (classList e)
    (if existsb (fun l => String.eqb type (fst l) && handler_eqb callback (snd l)) (listeners e)
     then listeners e
     else listeners e ++ [(type, callback)])
    (text e).

(** The five slots of the detail section: the two attributes of
    [detailImage] the script writes, and the text of the four others. *)
Record detail_view := mkDetail {
  detailImage_src : string;
  detailImage_alt : string;
  detailName : string;
  detailRestaurant : string;
  detailRating : string;
  detailComment : string
}.

(** A text control of the form (text or number input, textarea): its
    [id] and [name] attributes, its current value and the default value
    its markup declares. *)
Record control := mkControl {
  control_id : string;
  control_name : string;
  control_value : string;
  control_default : string
}.

(** What [console.error] was given after its message. *)
Inductive logged :=
| LValue (v : value)
| LError (e : error).

Record page := mkPage {
  ramenMenuDiv : list element;
  detail : detail_view;
  newRamenForm : list control;
  defaultPrevented : bool;
  console : list (string * list logged);
  requests : list string
}.

(** ** The remote source *)

Inductive body :=
| NotJSON
| JSON (v : value).

(** Outcome of one [fetch]: the promise rejects, or resolves to a
    response with a status and a body. *)
Inductive reply :=
| NetworkError
| Response (status : Z) (payload : body).

Record response := mkResponse {
  status : Z;
  payload : body
}.

(** [response.ok] *)
Definition ok (r : response) : bool := (200 <=? status r) && (status r <=? 299).

(** ** State and exceptions *)

Definition M (A : Type) : Type := page -> completion A * page.

Definition ret {A} (a : A) : M A := fun st => (Normal a, st).

Definition bind {A B} (c : M A) (k : A -> M B) : M B :=
  fun st =>
    match c st with
    | (Normal a, st') => k a st'
    | (Throw e, st') => (Throw e, st')
    end.

Definition throw {A} (e : error) : M A := fun st => (Throw e, st).

Definition lift {A} (c : completion A) : M A := fun st => (c, st).

(** [try { c } catch (error) { h error }], which is also what
    [p.then(..).then(..).catch(h)] amounts to once the replies are known. *)
Definition try_catch {A} (c : M A) (h : error -> M A) : M A :=
  fun st =>
    match c st with
    | (Normal a, st') => (Normal a, st')
    | (Throw e, st') => h e st'
    end.

Declare Scope js_scope.
Delimit Scope js_scope with js.
Notation "x <- c ;; k" := (bind c (fun x => k))
  (at level 61, c at next level, right associativity) : js_scope.
Notation "c ;; k" := (bind c (fun _ => k))
  (at level 61, right associativity) : js_scope.
Local Open Scope js_scope.

Definition gets {A} (f : page -> A) : M A := fun st => (Normal (f st), st).

Definition modify (f : page -> page) : M unit := fun st => (Normal tt, f st).

Definition with_menu (m : list element) (st : page) : page :=
  mkPage m (detail st) (newRamenForm st) (defaultPrevented st) (console st) (requests st).

Definition with_detail (d : detail_view) (st : page) : page :=
  mkPage (ramenMenuDiv st) d (newRamenForm st) (defaultPrevented st) (console st) (requests st).

Definition with_form (f : list control) (st : page) : page :=
  mkPage (ramenMenuDiv st) (detail st) f (defaultPrevented st) (console st) (requests st).

(** [console.error(message, ...rest)] *)
Definition console_error (message : string) (rest : list logged) : M unit :=
  modify (fun st =>
    mkPage (ramenMenuDiv st) (detail st) (newRamenForm st) (defaultPrevented st)
      (console st ++ [(message, rest)]) (requests st)).

(** [ramenMenuDiv.innerHTML = markup], the markup given as the children
    it parses to. *)
Definition set_innerHTML (children : list element) : M unit :=
  modify (with_menu children).

(** [ramenMenuDiv.appendChild(img)] *)
Definition appendChild (img : element) : M unit :=
  modify (fun st => with_menu (ramenMenuDiv st ++ [img]) st).

Definition set_detailImage_src (s : string) : M unit :=
  modify (fun st => let d := detail st in
    with_detail (mkDetail s (detailImage_alt d) (detailName d) (detailRestaurant d)
                   (detailRating d) (detailComment d)) st).

Definition set_detailImage_alt (s : string) : M unit :=
  modify (fun st => let d := detail st in
    with_detail (mkDetail (detailImage_src d) s (detailName d) (detailRestaurant d)
                   (detailRating d) (detailComment d)) st).

Definition set_detailName (s : string) : M unit :=
  modify (fun st => let d := detail st in
    with_detail (mkDetail (detailImage_src d) (detailImage_alt d) s (detailRestaurant d)
                   (detailRating d) (detailComment d)) st).

Definition set_detailRestaurant (s : string) : M unit :=
  modify (fun st => let d := detail st in
    with_detail (mkDetail (detailImage_src d) (detailImage_alt d) (detailName d) s
                   (detailRating d) (detailComment d)) st).

Definition set_detailRating (s : string) : M unit :=
  modify (fun st => let d := detail st in
    with_detail (mkDetail (detailImage_src d) (detailImage_alt d) (detailName d)
                   (detailRestaurant d) s (detailComment d)) st).

Definition set_detailComment (s : string) : M unit :=
  modify (fun st => let d := detail st in
    with_detail (mkDetail (detailImage_src d) (detailImage_alt d) (detailName d)
                   (detailRestaurant d) (detailRating d) s) st).

(** ** The form *)

(** What the named getter of a form answers for a key. *)
Inductive named_item :=
| Absent
| Single (c : control)
| Several (cs : list control).

Definition answers_to (key : string) (c : control) : bool :=
  String.eqb (control_id c) key || String.eqb (control_name c) key.

(** [form[key]]: the control whose [id] or [name] is the key, a
    RadioNodeList when several are, [undefined] when none is. *)
Definition named (form : list control) (key : string) : named_item :=
  match filter (answers_to key) form with
  | [] => Absent
  | [c] => Single c
  | cs => Several cs
  end.

(** [form[key].value].  A RadioNodeList answers with the value of its
    checked radio button, and text controls are none: the empty string. *)
Definition value_of (form : list control) (key : string) : completion string :=
  match named form key with
  | Absent => Throw TypeError
  | Single c => Normal (control_value c)
  | Several _ => Normal ""
  end.

(** [form.reset()]: every control back to its default value. *)
Definition reset (form : list control) : list control :=
  map (fun c => mkControl (control_id c) (control_name c) (control_default c) (control_default c)) form.

(** ** The script *)

Definition baseURL : string := "http://localhost:3000".

(** The children which the markup of line 51 parses to. *)
Definition failure_markup : list element :=
  [mkElement "p" None None None [] [] "Failed to load ramen menu. Is the server running?"].

Section Script.

(** The remote source, as the reply it gives to each address. *)
Variable server : string -> reply.

(** [fetch(url)]: the request goes out, and the promise settles with
    the server's reply. *)
Definition fetch (url : string) : M response :=
  fun st =>
    let st' := mkPage (ramenMenuDiv st) (detail st) (newRamenForm st) (defaultPrevented st)
                 (console st) (requests st ++ [url]) in
    match server url with
    | NetworkError => (Throw TypeError, st')
    | Response s p => (Normal (mkResponse s p), st')
    end.

(** [response.json()] *)
Definition json (r : response) : M value :=
  match payload r with
  | NotJSON => throw SyntaxError
  | JSON v => ret v
  end.

(** The first [then] of both chains (lines 21-26 and 68-73). *)
Definition checked_json (r : response) : M value :=
  if negb (ok r) then
    throw (Error ("HTTP error! status: " ++ Number_toString (Int (status r))))
  else json r.

Fixpoint for_each (l : list value) (callback : value -> M unit) : M unit :=
  match l with
  | [] => ret tt
  | x :: rest => callback x ;; for_each rest callback
  end.

(** [v.forEach(callback)]: only an array has the method. *)
Definition forEach (v : value) (callback : value -> M unit) : M unit :=
  match v with
  | VArr elems => for_each elems callback
  | _ => throw TypeError
  end.

(** Lines 92-107. *)
Definition renderDetail (ramen : value) : M unit :=
  if negb (truthy ramen) then
    console_error "renderDetail called with invalid ramen data" [LValue ramen]
  else
    image <- lift (cbind (Get ramen "image") ToString) ;;
    set_detailImage_src image ;;
    name <- lift (cbind (Get ramen "name") ToString) ;;
    set_detailImage_alt ("Image of " ++ name) ;;
    name <- lift (cbind (Get ramen "name") ToNullableString) ;;
    set_detailName name ;;
    restaurant <- lift (cbind (Get ramen "restaurant") ToNullableString) ;;
    set_detailRestaurant restaurant ;;
    rating <- lift (cbind (Get ramen "rating") ToNullableString) ;;
    set_detailRating rating ;;
    comment <- lift (cbind (Get ramen "comment") ToNullableString) ;;
    set_detailComment comment.

(** Lines 60-86; [target] is [event.target]. *)
Definition handleClick (target : element) : M unit :=
  match dataset_id target with
  | None | Some "" =>
      console_error "Clicked image is missing a data-id attribute." []
  | Some ramenId =>
      try_catch
        (response <- fetch (baseURL ++ "/ramens/" ++ ramenId) ;;
         ramen <- checked_json response ;;
         renderDetail ramen)
        (fun error =>
           console_error ("Error fetching ramen details for ID " ++ ramenId ++ ":") [LError error] ;;
           set_detailName "Error loading details" ;;
           set_detailRestaurant "" ;;
           set_detailRating "" ;;
           set_detailComment "" ;;
           set_detailImage_src "placeholder.jpg")
  end.

(** Lines 19-53. *)
Definition displayRamens : M unit :=
  try_catch
    (response <- fetch (baseURL ++ "/ramens") ;;
     ramens <- checked_json response ;;
     set_innerHTML [] ;;
     forEach ramens (fun ramen =>
       let img := createElement "img" in
       image <- lift (cbind (Get ramen "image") ToString) ;;
       let img := set_src image img in
       name <- lift (cbind (Get ramen "name") ToString) ;;
       let img := set_alt name img in
       id <- lift (cbind (Get ramen "id") ToString) ;;
       let img := set_dataset_id id img in
       let img := classList_add "ramen-avatar" img in
       let img := addEventListener "click" HandleClick img in
       appendChild img))
    (fun error =>
       console_error "Error fetching ramens:" [LError error] ;;
       set_innerHTML failure_markup).

(** Lines 150-170. *)
Definition addNewRamenToMenu (ramenData : value) : M unit :=
  let img := createElement "img" in
  image <- lift (cbind (Get ramenData "image") ToString) ;;
  let img := set_src image img in
  name <- lift (cbind (Get ramenData "name") ToString) ;;
  let img := set_alt name img in
  let img := classList_add "ramen-avatar" img in
  appendChild img.

(** The object literal of lines 125-134, over the submitting form. *)
Definition newRamen (form : list control) : completion value :=
  cbind (value_of form "new-name") (fun name =>
  cbind (value_of form "new-restaurant") (fun restaurant =>
  cbind (value_of form "new-image") (fun image =>
  cbind (value_of form "new-rating") (fun rating =>
  cbind (value_of form "new-comment") (fun comment =>
  Normal (VObj [("name", VStr name); ("restaurant", VStr restaurant);
                ("image", VStr image); ("rating", VStr rating);
                ("comment", VStr comment)])))))).

(** [event.preventDefault()] *)
Definition preventDefault : M unit :=
  modify (fun st =>
    mkPage (ramenMenuDiv st) (detail st) (newRamenForm st) true (console st) (requests st)).

(** [event.target.reset()] (line 140).  The form answers for [reset] as
    for any other key, its controls before its own methods: where a
    control has that id or name, what is called is no function. *)
Definition call_reset : M unit :=
  fun st =>
    match named (newRamenForm st) "reset" with
    | Absent => (Normal tt, with_form (reset (newRamenForm st)) st)
    | _ => (Throw TypeError, st)
    end.

(** Lines 121-141; [event.target] is the form of the page. *)
Definition handleFormSubmit : M unit :=
  preventDefault ;;
  form <- gets newRamenForm ;;
  ramen <- lift (newRamen form) ;;
  addNewRamenToMenu ramen ;;
  call_reset.

(** ** Activation *)

Definition call (h : handler) (target : element) : M unit :=
  match h with
  | HandleClick => handleClick target
  | HandleFormSubmit => handleFormSubmit
  end.

(** An exception that escapes a listener is reported by the host and
    goes no further. *)
Definition reported (c : M unit) : M unit :=
  fun st => (Normal tt, snd (c st)).

Fixpoint dispatch (type : string) (ls : list (string * handler)) (target : element) : M unit :=
  match ls with
  | [] => ret tt
  | (type', h) :: rest =>
      (if String.eqb type type' then reported (call h target) else ret tt) ;;
      dispatch type rest target
  end.

(** The user activates a child of the menu: its click listeners run in
    the order they were added.  No ancestor listens for clicks. *)
Definition click (target : element) : M unit :=
  dispatch "click" (listeners target) target.

End Script.

(** ** Sample data *)

Module Scenario.

Definition blank : page :=
  mkPage [] (mkDetail "" "" "" "" "" "") [] false [] [].

Definition shoyu : value :=
  VObj [("id", VNum (Int 1)); ("name", VStr "Shoyu"); ("restaurant", VStr "A");
        ("image", VStr "a.jpg"); ("rating", VStr "8"); ("comment", VStr "good")].

(** A remote source holding the single item [shoyu]. *)
Definition remote (url : string) : reply :=
  if String.eqb url "http://localhost:3000/ramens" then Response 200 (JSON (VArr [shoyu]))
  else if String.eqb url "http://localhost:3000/ramens/1" then Response 200 (JSON shoyu)
  else Response 404 (JSON (VObj [])).

(** A remote source that cannot be reached. *)
Definition offline (url : string) : reply := NetworkError.

Definition shoyu_avatar : element :=
  mkElement "img" (Some "a.jpg") (Some "Shoyu") (Some "1") ["ramen-avatar"]
    [("click", HandleClick)] "".

(** The form with its five fields, as a user filled two of them. *)
Definition filled : list control :=
  [mkControl "new-name" "name" "Miso" "";
   mkControl "new-restaurant" "restaurant" "" "";
   mkControl "new-image" "image" "b.jpg" "";
   mkControl "new-rating" "rating" "" "";
   mkControl "new-comment" "new-comment" "" ""].

Definition miso_avatar : element :=
  mkElement "img" (Some "b.jpg") (Some "Miso") None ["ramen-avatar"] [] "".

(** A form whose controls carry the names of the item's fields and no
    [id]. *)
Definition by_name_only : list control :=
  [mkControl "" "name" "Miso" "";
   mkControl "" "restaurant" "Ichiran" "";
   mkControl "" "image" "b.jpg" "";
   mkControl "" "rating" "7" "";
   mkControl "" "comment" "rich" ""].

(** The form of [filled] without its comment field. *)
Definition no_comment : list control :=
  [mkControl "new-name" "name" "Miso" "";
   mkControl "new-restaurant" "restaurant" "" "";
   mkControl "new-image" "image" "b.jpg" "";
   mkControl "new-rating" "rating" "" ""].

End Scenario.
Import Scenario.

(** ** Vocabulary of the statements *)

(** The text of an attribute set from a field, when the field can be
    read and converts: [null] and [undefined] are spelled out, as the
    attribute setters do. *)
Definition attribute_text (ramen : value) (k : string) : option string :=
  match cbind (Get ramen k) ToString with
  | Normal s => Some s
  | Throw _ => None
  end.

(** An item the loop of [displayRamens] gets through: its [image],
    [name] and [id] can be read and convert. *)
Definition presentable (ramen : value) : bool :=
  match attribute_text ramen "image", attribute_text ramen "name", attribute_text ramen "id" with
  | Some _, Some _, Some _ => true
  | _, _, _ => false
  end.

Definition text_or_empty (o : option string) : string :=
  match o with
  | Some s => s
  | None => ""
  end.

(** The node [displayRamens] builds for an item. *)
Definition avatar (ramen : value) : element :=
  mkElement "img"
    (Some (text_or_empty (attribute_text ramen "image")))
    (Some (text_or_empty (attribute_text ramen "name")))
    (Some (text_or_empty (attribute_text ramen "id")))
    ["ramen-avatar"] [("click", HandleClick)] "".

(** A node made for an item, as opposed to a message. *)
Definition selectable (e : element) : bool := String.eqb (tagName e) "img".

(** Transport error or non-success status. *)
Definition failed (r : reply) : bool :=
  match r with
  | NetworkError => true
  | Response s _ => negb ((200 <=? s) && (s <=? 299))
  end.

(** The keys under which [handleFormSubmit] looks its five fields up. *)
Definition field_keys : list string :=
  ["new-name"; "new-restaurant"; "new-image"; "new-rating"; "new-comment"].

(** The page after one more [console.error] and nothing else. *)
Definition logging (entry : string * list logged) (st : page) : page :=
  mkPage (ramenMenuDiv st) (detail st) (newRamenForm st) (defaultPrevented st)
    (console st ++ [entry]) (requests st).

(** The page after one more request and nothing else. *)
Definition requesting (url : string) (st : page) : page :=
  mkPage (ramenMenuDiv st) (detail st) (newRamenForm st) (defaultPrevented st)
    (console st) (requests st ++ [url]).

(** Reading of the specification: the value of the form's control whose
    [name] attribute is the given one. *)
Definition spec_value_named (form : list control) (name : string) : option string :=
  option_map control_value (find (fun c => String.eqb (control_name c) name) form).

(** Reading of the specification: a field that is absent from the form
    gives the empty text. *)
Definition spec_field_or_empty (form : list control) (key : string) : string :=
  match named form key with
  | Absent => ""
  | Single c => control_value c
  | Several _ => ""
  end.






(** Reading of the amended claim: the controls of a form that answer to
    a key, by their [id] or by their [name]. *)
Definition answering (form : list control) (key : string) : list control :=
  filter (fun c => String.eqb (control_id c) key || String.eqb (control_name c) key) form.

(** Reading of the amended claim: what the handler reads under a key.
    One control answers: its value.  Several: the empty text.  None:
    nothing can be read. *)
Definition read (form : list control) (key : string) : option string :=
  match answering form key with
  | [] => None
  | [c] => Some (control_value c)
  | _ :: _ :: _ => Some ""
  end.

(** ** Bootstrap and user actions *)

(** The callback of lines 29-40, under a name. *)
Definition each_ramen (ramen : value) : M unit :=
  let img := createElement "img" in
  image <- lift (cbind (Get ramen "image") ToString) ;;
  let img := set_src image img in
  name <- lift (cbind (Get ramen "name") ToString) ;;
  let img := set_alt name img in
  id <- lift (cbind (Get ramen "id") ToString) ;;
  let img := set_dataset_id id img in
  let img := classList_add "ramen-avatar" img in
  let img := addEventListener "click" HandleClick img in
  appendChild img.

(** The items [displayRamens] renders for a reply: a success status, a
    body that decodes to an array, every element of it presentable. *)
Definition collection (r : reply) : option (list value) :=
  match r with
  | Response s (JSON (VArr items)) =>
      if (200 <=? s) && (s <=? 299) && forallb presentable items then Some items else None
  | _ => None
  end.

(** The error state lines 80-84 leave in the detail view; the
    accessible text of the image is not part of it. *)
Definition error_state (d : detail_view) : detail_view :=
  mkDetail "placeholder.jpg" (detailImage_alt d) "Error loading details" "" "" "".

(** What the first two steps of a chain hand on for a reply: the
    decoded body, or the exception the chain is left with. *)
Definition decoded (r : reply) : error + value :=
  match r with
  | NetworkError => inl TypeError
  | Response s p =>
      if (200 <=? s) && (s <=? 299) then
        match p with
        | NotJSON => inl SyntaxError
        | JSON v => inr v
        end
      else inl (Error ("HTTP error! status: " ++ Number_toString (Int s)))
  end.

(** The page the handler of lines 77-85 leaves, entered with [e]. *)
Definition click_error (ramenId : string) (e : error) (st : page) : page :=
  with_detail (error_state (detail st))
    (logging ("Error fetching ramen details for ID " ++ ramenId ++ ":", [LError e]) st).

(** The node [addNewRamenToMenu] builds. *)
Definition inert (image name : string) : element :=
  mkElement "img" (Some image) (Some name) None ["ramen-avatar"] [] "".

(** The page together with the form element itself: [formElement]
    carries the listeners registered on [newRamenForm], whose controls
    are those of the page. *)
Record app := mkApp {
  view : page;
  formElement : element
}.

Definition on_view {T} (c : M T) (w : app) : completion T * app :=
  let (r, v) := c (view w) in (r, mkApp v (formElement w)).

(** Lines 112-114. *)
Definition addSubmitListener (w : app) : completion unit * app :=
  (Normal tt, mkApp (view w) (addEventListener "submit" HandleFormSubmit (formElement w))).

(** Lines 178-182. *)
Definition main (server : string -> reply) (w : app) : completion unit * app :=
  match on_view (displayRamens server) w with
  | (Normal _, w') => addSubmitListener w'
  | (Throw e, w') => (Throw e, w')
  end.

(** A new event: its default action is not prevented yet. *)
Definition fresh_event (st : page) : page :=
  mkPage (ramenMenuDiv st) (detail st) (newRamenForm st) false (console st) (requests st).

(** The user submits the form: its submit listeners run on a new event. *)
Definition submit (server : string -> reply) (w : app) : completion unit * app :=
  on_view (fun st =>
    dispatch server "submit" (listeners (formElement w)) (formElement w) (fresh_event st)) w.

(** The user activates the [k]-th child of the menu, if there is one. *)
Definition activate (server : string -> reply) (k : nat) (w : app) : completion unit * app :=
  match nth_error (ramenMenuDiv (view w)) k with
  | Some node => on_view (click server node) w
  | None => (Normal tt, w)
  end.

(** The user types [v] into the [k]-th control of the form. *)
Fixpoint fill (k : nat) (v : string) (form : list control) : list control :=
  match form, k with
  | [], _ => []
  | c :: rest, O => mkControl (control_id c) (control_name c) v (control_default c) :: rest
  | c :: rest, S k' => c :: fill k' v rest
  end.

Inductive action :=
| Activate (k : nat)
| Fill (k : nat) (v : string)
| Submit.

Definition step (server : string -> reply) (w : app) (a : action) : app :=
  match a with
  | Activate k => snd (activate server k w)
  | Fill k v => mkApp (with_form (fill k v (newRamenForm (view w))) (view w)) (formElement w)
  | Submit => snd (submit server w)
  end.

(** A visit in which every reply is there before the next event: the
    host announces that the document is ready, [main] runs, its load
    settled, and the user acts, each activation settled in turn.  The
    visits in which replies come later are those of [visit] below. *)
Definition session (server : string -> reply) (w : app) (actions : list action) : app :=
  fold_left (step server) actions (snd (main server w)).

(** What of a control no function of the script changes. *)
Definition shape (c : control) : string * string * string :=
  (control_id c, control_name c, control_default c).

Definition is_submit (a : action) : bool :=
  match a with
  | Submit => true
  | _ => false
  end.

Definition is_activate (a : action) : bool :=
  match a with
  | Activate _ => true
  | _ => false
  end.

(** A child of the menu that was appended for a submission. *)
Definition is_inert (e : element) : bool :=
  match dataset_id e, listeners e with
  | None, [] => String.eqb (tagName e) "img"
  | _, _ => false
  end.

(** The five keys all designate something in the form. *)
Definition complete (form : list control) : bool :=
  forallb (fun key => match named form key with Absent => false | _ => true end) field_keys.

(** A child of the menu on which nothing listens, or [handleClick]
    alone, for clicks. *)
Definition wired (e : element) : bool :=
  match listeners e with
  | [] => true
  | [(type, HandleClick)] => String.eqb type "click"
  | _ => false
  end.

(** The address of a single item. *)
Definition item_address (url : string) : Prop :=
  exists id, url = baseURL ++ "/ramens/" ++ id.

(** What the script has made of the document once [main] has run. *)
Definition armed (w : app) : Prop :=
  forallb wired (ramenMenuDiv (view w)) = true /\
  listeners (formElement w) = [("submit", HandleFormSubmit)].

(** How a document [w2] stands to an earlier one [w1], [submits]
    submissions and [activations] activations apart: the menu has only
    grown, by inert images, one per submission at most and one for each
    when the form is complete; the requests have only grown, by
    single-item addresses, one per activation at most; the controls of
    the form have kept their ids, names and default values, and the
    form element its listeners. *)
Definition follows (submits activations : nat) (w1 w2 : app) : Prop :=
  exists locals urls,
    ramenMenuDiv (view w2) = (ramenMenuDiv (view w1) ++ locals)%list /\
    forallb is_inert locals = true /\
    (length locals <= submits)%nat /\
    (complete (newRamenForm (view w1)) = true -> length locals = submits) /\
    requests (view w2) = (requests (view w1) ++ urls)%list /\
    Forall item_address urls /\
    (length urls <= activations)%nat /\
    map shape (newRamenForm (view w2)) = map shape (newRamenForm (view w1)) /\
    formElement w2 = formElement w1.

(** ** Replies that arrive later *)

(** The functions above run a chain to its end at the call.  The host
    does not: [fetch] returns at once, and what was chained on it runs
    when the reply is there, other events having had their turn in
    between.  Each handler is split here where the source splits it, at
    [fetch]: what runs at the call, and what runs on the reply. *)

(** A chain that waits for its reply. *)
Inductive chain :=
| Collection
| Item (ramenId : string).

Definition chain_eqb (a b : chain) : bool :=
  match a, b with
  | Collection, Collection => true
  | Item x, Item y => String.eqb x y
  | _, _ => false
  end.

(** The address a chain asked. *)
Definition address (c : chain) : string :=
  match c with
  | Collection => baseURL ++ "/ramens"
  | Item ramenId => baseURL ++ "/ramens/" ++ ramenId
  end.

(** The promise of [fetch] settled with a reply, and the first [then]
    (lines 21-26 and 68-73). *)
Definition received (r : reply) : M value :=
  match r with
  | NetworkError => throw TypeError
  | Response s p => checked_json (mkResponse s p)
  end.

(** What a chain does once its reply is there: lines 21-52 for the
    collection, lines 68-85 for an item. *)
Definition settle (c : chain) (r : reply) : M unit :=
  match c with
  | Collection =>
      try_catch
        (ramens <- received r ;;
         set_innerHTML [] ;;
         forEach ramens each_ramen)
        (fun error =>
           console_error "Error fetching ramens:" [LError error] ;;
           set_innerHTML failure_markup)
  | Item ramenId =>
      try_catch
        (ramen <- received r ;;
         renderDetail ramen)
        (fun error =>
           console_error ("Error fetching ramen details for ID " ++ ramenId ++ ":") [LError error] ;;
           set_detailName "Error loading details" ;;
           set_detailRestaurant "" ;;
           set_detailRating "" ;;
           set_detailComment "" ;;
           set_detailImage_src "placeholder.jpg")
  end.

(** [displayRamens], up to the return of [fetch] (lines 19-20). *)
Definition displayRamens_begins : M (list chain) :=
  modify (requesting (baseURL ++ "/ramens")) ;;
  ret [Collection].

(** [handleClick], up to the return of [fetch] (lines 60-67). *)
Definition handleClick_begins (target : element) : M (list chain) :=
  match dataset_id target with
  | None | Some "" =>
      console_error "Clicked image is missing a data-id attribute." [] ;;
      ret []
  | Some ramenId =>
      modify (requesting (baseURL ++ "/ramens/" ++ ramenId)) ;;
      ret [Item ramenId]
  end.

(** A call that starts chains, each reply being there at once. *)
Fixpoint settle_all (server : string -> reply) (cs : list chain) : M unit :=
  match cs with
  | [] => ret tt
  | c :: rest => settle c (server (address c)) ;; settle_all server rest
  end.

Definition begin_call (h : handler) (target : element) : M (list chain) :=
  match h with
  | HandleClick => handleClick_begins target
  | HandleFormSubmit => handleFormSubmit ;; ret []
  end.

(** As [reported], for a listener that starts chains. *)
Definition begun (c : M (list chain)) : M (list chain) :=
  fun st =>
    match c st with
    | (Normal cs, st') => (Normal cs, st')
    | (Throw _, st') => (Normal [], st')
    end.

Fixpoint begin_dispatch (type : string) (ls : list (string * handler)) (target : element)
    : M (list chain) :=
  match ls with
  | [] => ret []
  | (type', h) :: rest =>
      cs <- (if String.eqb type type' then begun (begin_call h target) else ret []) ;;
      cs' <- begin_dispatch type rest target ;;
      ret (cs ++ cs')%list
  end.

Fixpoint remove_first (c : chain) (pending : list chain) : list chain :=
  match pending with
  | [] => []
  | c' :: rest => if chain_eqb c c' then rest else c' :: remove_first c rest
  end.

(** What happens during a visit: the user acts, or the reply of a chain
    arrives. *)
Inductive event :=
| User (a : action)
| Arrives (c : chain).

(** The document and the chains that wait. *)
Definition waiting : Type := app * list chain.

Definition on_view_begin (c : M (list chain)) (s : waiting) : waiting :=
  let (r, v) := c (view (fst s)) in
  (mkApp v (formElement (fst s)),
   (snd s ++ match r with Normal cs => cs | Throw _ => [] end)%list).

Definition happen (server : string -> reply) (s : waiting) (ev : event) : waiting :=
  match ev with
  | User (Activate k) =>
      match nth_error (ramenMenuDiv (view (fst s))) k with
      | Some node => on_view_begin (begin_dispatch "click" (listeners node) node) s
      | None => s
      end
  | User (Fill k v) =>
      (mkApp (with_form (fill k v (newRamenForm (view (fst s)))) (view (fst s)))
         (formElement (fst s)),
       snd s)
  | User Submit =>
      on_view_begin
        (fun st =>
           begin_dispatch "submit" (listeners (formElement (fst s))) (formElement (fst s))
             (fresh_event st)) s
  | Arrives c =>
      if existsb (chain_eqb c) (snd s) then
        (mkApp (snd (settle c (server (address c)) (view (fst s)))) (formElement (fst s)),
         remove_first c (snd s))
      else s
  end.

(** [main], up to its return: the request for the collection is out,
    its chain waits, and the form is listened on. *)
Definition main_begins (w : app) : waiting :=
  on_view_begin displayRamens_begins
    (snd (addSubmitListener w), []).

(** A visit in which replies arrive when they arrive. *)
Definition visit (server : string -> reply) (w : app) (events : list event) : waiting :=
  fold_left (happen server) events (main_begins w).





(** ** More sample data *)

Module Samples.

(** A remote source that answers every request with the same body. *)
Definition always (v : value) (url : string) : reply := Response 200 (JSON v).

(** A remote source whose bodies do not decode. *)
Definition garbled (url : string) : reply := Response 200 NotJSON.

(** A record whose image has no text: the object in its place shadows
    [toString] with a number. *)
Definition unreadable : value :=
  VObj [("id", VNum (Int 2)); ("name", VStr "Tonkotsu");
        ("image", VObj [("toString", VNum (Int 1))])].

(** A record without [id]. *)
Definition unnumbered : value :=
  VObj [("name", VStr "Shio"); ("image", VStr "c.jpg")].

(** A node whose [data-id] attribute is there and empty. *)
Definition blank_id_avatar : element :=
  mkElement "img" (Some "a.jpg") (Some "Shoyu") (Some "") ["ramen-avatar"]
    [("click", HandleClick)] "".

(** The form with its five fields, the image field declaring a default. *)
Definition prefilled : list control :=
  [mkControl "new-name" "name" "Miso" "";
   mkControl "new-restaurant" "restaurant" "Ichiran" "";
   mkControl "new-image" "image" "b.jpg" "default.jpg";
   mkControl "new-rating" "rating" "7" "";
   mkControl "new-comment" "new-comment" "rich" ""].


(** A form in which two controls answer to [new-name]. *)
Definition doubled : list control :=
  [mkControl "new-name" "name" "Miso" "";
   mkControl "other" "new-name" "Shio" "";
   mkControl "new-restaurant" "restaurant" "Ichiran" "";
   mkControl "new-image" "image" "b.jpg" "";
   mkControl "new-rating" "rating" "7" "";
   mkControl "new-comment" "new-comment" "rich" ""].

(** A record with a fractional rating, a large identifier and no comment. *)
Definition tsukemen : value :=
  VObj [("id", VNum (Int 9223372036854775808)); ("name", VStr "Tsukemen");
        ("restaurant", VNull); ("image", VStr "d.jpg"); ("rating", VNum (Float "7.5"))].

(** The document before the script has run: nothing listens on the form. *)
Definition fresh (form : list control) : app :=
  mkApp (with_form form blank) (mkElement "form" None None None [] [] "").

End Samples.
Import Samples.

(** ** Concrete runs *)

Example decimal_1 : decimal 1 = "1".
Proof. reflexivity. Qed.

Example numeral_2_63 : Number_toString (Int (2 ^ 63)) = "9223372036854776000".
Proof. vm_compute. reflexivity. Qed.

Example numeral_2_64 : Number_toString (Int (2 ^ 64)) = "18446744073709552000".
Proof. vm_compute. reflexivity. Qed.

Example numeral_2_53 : Number_toString (Int 9007199254740992) = "9007199254740992".
Proof. vm_compute. reflexivity. Qed.

Example numeral_tie_down : Number_toString (Int 9007199254740993) = "9007199254740992".
Proof. vm_compute. reflexivity. Qed.

Example numeral_tie_up : Number_toString (Int 9007199254740995) = "9007199254740996".
Proof. vm_compute. reflexivity. Qed.

Example numeral_18_digits :
  Number_toString (Int 123456789012345678) = "123456789012345680".
Proof. vm_compute. reflexivity. Qed.

Example numeral_21_digits :
  Number_toString (Int 123456789012345678901) = "123456789012345680000".
Proof. vm_compute. reflexivity. Qed.

Example numeral_1e21 : Number_toString (Int (10 ^ 21)) = "1e+21".
Proof. vm_compute. reflexivity. Qed.

Example numeral_30_digits :
  Number_toString (Int 123456789012345678901234567890) = "1.2345678901234568e+29".
Proof. vm_compute. reflexivity. Qed.

Example numeral_negative :
  Number_toString (Int (- 2 ^ 63)) = "-9223372036854776000".
Proof. vm_compute. reflexivity. Qed.

Example numeral_largest :
  Number_toString (Int (2 ^ 1024 - 2 ^ 971)) = "1.7976931348623157e+308".
Proof. vm_compute. reflexivity. Qed.

Example numeral_overflow : Number_toString (Int (2 ^ 1024)) = "Infinity".
Proof. vm_compute. reflexivity. Qed.

Example numeral_1e23 : Number_toString (Int (10 ^ 23)) = "1e+23".
Proof. vm_compute. reflexivity. Qed.

Example numeral_2_70 : Number_toString (Int (2 ^ 70)) = "1.1805916207174113e+21".
Proof. vm_compute. reflexivity. Qed.

Example numeral_exact_but_shorter :
  Number_toString (Int 1000000000000000128) = "1000000000000000100".
Proof. vm_compute. reflexivity. Qed.

Example numeral_rounds_to_1e21 :
  Number_toString (Int 999999999999999999999) = "1e+21".
Proof. vm_compute. reflexivity. Qed.

Example numeral_fraction : ToString (VNum (Float "7.5")) = Normal "7.5".
Proof. reflexivity. Qed.

Example ToString_array :
  ToString (VArr [VNum (Int 12); VNull; VStr "a"; VArr [VBool true; VNum (Int (-3))]])
  = Normal "12,,a,true,-3".
Proof. reflexivity. Qed.

Example ToString_shadowed : ToString (VObj [("toString", VNum (Int 1))]) = Throw TypeError.
Proof. reflexivity. Qed.

Example load_one_item :
  displayRamens remote blank
  = (Normal tt,
     mkPage [shoyu_avatar] (mkDetail "" "" "" "" "" "") [] false []
       ["http://localhost:3000/ramens"]).
Proof. reflexivity. Qed.

Example activate_loaded_item :
  detail (snd (click remote shoyu_avatar (snd (displayRamens remote blank))))
  = mkDetail "a.jpg" "Image of Shoyu" "Shoyu" "A" "8" "good".
Proof. reflexivity. Qed.

Example submit_filled_form :
  handleFormSubmit (with_form filled blank)
  = (Normal tt,
     mkPage [miso_avatar] (mkDetail "" "" "" "" "" "") (reset filled) true [] []).
Proof. reflexivity. Qed.

Example load_offline :
  displayRamens offline blank
  = (Normal tt,
     mkPage failure_markup (mkDetail "" "" "" "" "" "") [] false
       [("Error fetching ramens:", [LError TypeError])]
       ["http://localhost:3000/ramens"]).
Proof. reflexivity. Qed.

(** A [null] among the items stops the loop; the handler of the chain
    then replaces what was already appended. *)
Example load_null_item :
  ramenMenuDiv
    (snd (displayRamens (fun _ => Response 200 (JSON (VArr [shoyu; VNull]))) blank))
  = failure_markup.
Proof. reflexivity. Qed.

(** ** Laws of the monad *)

Lemma bind_normal {A B} (c : M A) (k : A -> M B) st a st' :
  c st = (Normal a, st') -> bind c k st = k a st'.
Proof. intros H. unfold bind. now rewrite H. Qed.

Lemma bind_throw {A B} (c : M A) (k : A -> M B) st e st' :
  c st = (Throw e, st') -> bind c k st = (Throw e, st').
Proof. intros H. unfold bind. now rewrite H. Qed.

Lemma try_catch_throw {A} (c : M A) h st e st' :
  c st = (Throw e, st') -> try_catch c h st = h e st'.
Proof. intros H. unfold try_catch. now rewrite H. Qed.


(** ** The detail presenter *)

Lemma renderDetail_falsy ramen st :
  truthy ramen = false ->
  renderDetail ramen st
  = (Normal tt, logging ("renderDetail called with invalid ramen data", [LValue ramen]) st).
Proof. intros H. unfold renderDetail. now rewrite H. Qed.







(** C9.  The detail presenter, given [null] or [undefined], completes
    after one [console.error] and leaves the five slots, and the rest
    of the page, untouched. *)
Theorem renderDetail_null_or_undefined st :
  (renderDetail VNull st
   = (Normal tt, logging ("renderDetail called with invalid ramen data", [LValue VNull]) st) /\
   detail (snd (renderDetail VNull st)) = detail st) /\
  (renderDetail VUndefined st
   = (Normal tt, logging ("renderDetail called with invalid ramen data", [LValue VUndefined]) st) /\
   detail (snd (renderDetail VUndefined st)) = detail st).
Proof.
  split; (split; [now apply renderDetail_falsy | reflexivity]).
Qed.

(** C10.  The guard of the detail presenter turns every falsy argument
    away: given [0], the empty string, [false] or [NaN] it completes
    after one [console.error] and leaves the five slots, and the rest
    of the page, untouched. *)
Theorem renderDetail_rejects_falsy ramen st :
  In ramen [VNum (Int 0); VStr ""; VBool false; VNum NaN] ->
  renderDetail ramen st
  = (Normal tt, logging ("renderDetail called with invalid ramen data", [LValue ramen]) st) /\
  detail (snd (renderDetail ramen st)) = detail st.
Proof.
  intros H.
  assert (Hf : truthy ramen = false).
  { cbn in H. destruct H as [<-|[<-|[<-|[<-|[]]]]]; reflexivity. }
  rewrite (renderDetail_falsy _ _ Hf). split; reflexivity.
Qed.

Lemma renderDetail_rejects_falsy_witness :
  renderDetail (VNum NaN) blank
  = (Normal tt,
     logging ("renderDetail called with invalid ramen data", [LValue (VNum NaN)]) blank) /\
  detail (snd (renderDetail (VNum NaN) blank)) = detail blank.
Proof.
  apply (renderDetail_rejects_falsy (VNum NaN) blank).
  cbn. right. right. right. left. reflexivity.
Defined.

(** ** The activation handler *)

Section Activation.

Variable server : string -> reply.

(** C8.  Activating a node that stores no identifier makes the
    activation handler log one diagnostic and return: no request goes
    out and the five detail slots keep their content. *)
Theorem handleClick_without_identifier target st :
  dataset_id target = None ->
  handleClick server target st
  = (Normal tt, logging ("Clicked image is missing a data-id attribute.", []) st) /\
  requests (snd (handleClick server target st)) = requests st /\
  detail (snd (handleClick server target st)) = detail st.
Proof.
  intros H. unfold handleClick. rewrite H. repeat split.
Qed.

(** X9.  An identifier that is there but empty is turned away alike. *)
Lemma handleClick_empty_identifier target st :
  dataset_id target = Some "" ->
  handleClick server target st
  = (Normal tt, logging ("Clicked image is missing a data-id attribute.", []) st).
Proof. intros H. unfold handleClick. now rewrite H. Qed.

Lemma checked_json_not_ok s p st :
  (200 <=? s) && (s <=? 299) = false ->
  checked_json (mkResponse s p) st
  = (Throw (Error ("HTTP error! status: " ++ Number_toString (Int s))), st).
Proof. intros H. unfold checked_json, ok. cbn. now rewrite H. Qed.

(** Both chains start alike; when the reply is a failure the part
    before the handler ends in an exception, one request sent. *)
Lemma fetch_failed {A} url (k : value -> M A) st :
  failed (server url) = true ->
  exists e,
    bind (fetch server url) (fun response => bind (checked_json response) k) st
    = (Throw e, requesting url st).
Proof.
  intros H. unfold bind at 1. unfold fetch.
  destruct (server url) as [|s p]; cbn in H.
  - now exists TypeError.
  - apply negb_true_iff in H.
    exists (Error ("HTTP error! status: " ++ Number_toString (Int s))).
    erewrite bind_throw; [reflexivity|].
    now apply checked_json_not_ok.
Qed.

(** C5.  When the stored identifier is there and the single-item fetch
    fails (transport error or non-success status), the activation
    handler sends that one request and no other, logs one diagnostic
    that names the identifier, and leaves the detail view in its error
    state: the name slot reads "Error loading details", the restaurant,
    rating and comment slots are empty and the image source is
    "placeholder.jpg". *)
Theorem handleClick_fetch_failure target ramenId st :
  dataset_id target = Some ramenId ->
  ramenId <> "" ->
  failed (server (baseURL ++ "/ramens/" ++ ramenId)) = true ->
  let st' := snd (handleClick server target st) in
  fst (handleClick server target st) = Normal tt /\
  detailName (detail st') = "Error loading details" /\
  detailRestaurant (detail st') = "" /\
  detailRating (detail st') = "" /\
  detailComment (detail st') = "" /\
  detailImage_src (detail st') = "placeholder.jpg" /\
  detailImage_alt (detail st') = detailImage_alt (detail st) /\
  (exists error,
     console st'
     = (console st
        ++ [(("Error fetching ramen details for ID " ++ ramenId ++ ":")%string,
             [LError error])])%list) /\
  requests st' = (requests st ++ [(baseURL ++ "/ramens/" ++ ramenId)%string])%list /\
  ramenMenuDiv st' = ramenMenuDiv st.
Proof.
  intros Hid Hne Hfail. unfold handleClick. rewrite Hid.
  destruct ramenId as [|a r]; [congruence|].
  destruct (fetch_failed _ renderDetail st Hfail) as [e He].
  cbv zeta. erewrite try_catch_throw by exact He.
  destruct st as [menu d form prevented log reqs]. cbn.
  repeat split. now exists e.
Qed.

End Activation.

Lemma handleClick_fetch_failure_witness :
  detailName (detail (snd (handleClick offline shoyu_avatar blank))) = "Error loading details".
Proof.
  apply (handleClick_fetch_failure offline shoyu_avatar "1" blank);
    [reflexivity | discriminate | reflexivity].
Defined.

Lemma handleClick_without_identifier_witness :
  requests (snd (handleClick remote miso_avatar blank)) = requests blank.
Proof.
  apply (handleClick_without_identifier remote miso_avatar blank). reflexivity.
Defined.

(** ** The collection loader *)

Section Collection.

Variable server : string -> reply.

Lemma chain_failed {A} url (k : value -> M A) (h : error -> M A) st :
  failed (server url) = true ->
  exists e,
    try_catch (bind (fetch server url) (fun response => bind (checked_json response) k)) h st
    = h e (requesting url st).
Proof.
  intros H. destruct (fetch_failed server url k st H) as [e He].
  exists e. now apply try_catch_throw.
Qed.

(** C4.  When the collection endpoint answers with a non-success status
    or cannot be reached, the collection loader sends that one request
    and no other, logs one diagnostic, and leaves the menu container
    holding the failure paragraph alone, whatever it held before: no
    selectable node remains. *)
Theorem displayRamens_failure st :
  failed (server (baseURL ++ "/ramens")) = true ->
  let st' := snd (displayRamens server st) in
  fst (displayRamens server st) = Normal tt /\
  ramenMenuDiv st'
  = [mkElement "p" None None None [] [] "Failed to load ramen menu. Is the server running?"] /\
  filter selectable (ramenMenuDiv st') = [] /\
  (exists error,
     console st' = (console st ++ [("Error fetching ramens:"%string, [LError error])])%list) /\
  requests st' = (requests st ++ [(baseURL ++ "/ramens")%string])%list /\
  detail st' = detail st.
Proof.
  intros H. unfold displayRamens.
  edestruct (chain_failed (A := unit)) as [e He]; [exact H|].
  cbv zeta. rewrite He.
  destruct st as [menu d form prevented log reqs]. cbn.
  repeat split. now exists e.
Qed.



Lemma attribute_text_string ramen k s :
  Get ramen k = Normal (VStr s) -> attribute_text ramen k = Some s.
Proof. intros H. unfold attribute_text. now rewrite H. Qed.

Lemma attribute_text_integer ramen k z :
  Get ramen k = Normal (VNum (Int z)) ->
  attribute_text ramen k = Some (Number_toString (Int z)).
Proof. intros H. unfold attribute_text. now rewrite H. Qed.

(** An object with a textual [image] and [name] and a numeric or
    textual [id] is presentable. *)
Lemma record_presentable ramen image name :
  Get ramen "image" = Normal (VStr image) ->
  Get ramen "name" = Normal (VStr name) ->
  (exists z, Get ramen "id" = Normal (VNum (Int z))) \/
  (exists s, Get ramen "id" = Normal (VStr s)) ->
  presentable ramen = true.
Proof.
  intros Hi Hn Hd. unfold presentable.
  rewrite (attribute_text_string _ _ _ Hi), (attribute_text_string _ _ _ Hn).
  destruct Hd as [[z Hz]|[s Hs]].
  - now rewrite (attribute_text_integer _ _ _ Hz).
  - now rewrite (attribute_text_string _ _ _ Hs).
Qed.




End Collection.

Lemma displayRamens_failure_witness :
  ramenMenuDiv (snd (displayRamens offline (with_menu [shoyu_avatar] blank)))
  = [mkElement "p" None None None [] [] "Failed to load ramen menu. Is the server running?"].
Proof.
  apply (displayRamens_failure offline (with_menu [shoyu_avatar] blank)). reflexivity.
Defined.


(** An identifier past 2^53 is stored as the double prints, not digit
    for digit. *)
Example load_large_identifier :
  map dataset_id (ramenMenuDiv (snd (displayRamens (always (VArr [tsukemen])) blank)))
  = [Some "9223372036854776000"].
Proof. vm_compute. reflexivity. Qed.

(** ** The local append handler *)

Lemma value_of_cases form key :
  (named form key <> Absent /\ exists v, value_of form key = Normal v) \/
  (named form key = Absent /\ value_of form key = Throw TypeError).
Proof.
  unfold value_of. destruct (named form key) as [|c|cs].
  - right. now split.
  - left. split; [discriminate | now eexists].
  - left. split; [discriminate | now eexists].
Qed.

Lemma value_of_read form key :
  value_of form key
  = match read form key with
    | Some v => Normal v
    | None => Throw TypeError
    end.
Proof.
  unfold value_of, named, read, answering.
  change (fun c : control => String.eqb (control_id c) key || String.eqb (control_name c) key)
    with (answers_to key).
  now destruct (filter (answers_to key) form) as [|c [|c' rest]].
Qed.

Lemma newRamen_values form name restaurant image rating comment :
  value_of form "new-name" = Normal name ->
  value_of form "new-restaurant" = Normal restaurant ->
  value_of form "new-image" = Normal image ->
  value_of form "new-rating" = Normal rating ->
  value_of form "new-comment" = Normal comment ->
  newRamen form
  = Normal (VObj [("name", VStr name); ("restaurant", VStr restaurant);
                  ("image", VStr image); ("rating", VStr rating);
                  ("comment", VStr comment)]).
Proof.
  intros Hn Hr Hi Hg Hc. unfold newRamen. now rewrite Hn, Hr, Hi, Hg, Hc.
Qed.

(** With its five values read, the handler gets as far as the call of
    [reset], the node appended. *)
Lemma handleFormSubmit_reaches_reset st name restaurant image rating comment :
  value_of (newRamenForm st) "new-name" = Normal name ->
  value_of (newRamenForm st) "new-restaurant" = Normal restaurant ->
  value_of (newRamenForm st) "new-image" = Normal image ->
  value_of (newRamenForm st) "new-rating" = Normal rating ->
  value_of (newRamenForm st) "new-comment" = Normal comment ->
  handleFormSubmit st
  = call_reset
      (mkPage (ramenMenuDiv st ++ [inert image name]) (detail st) (newRamenForm st) true
         (console st) (requests st)).
Proof.
  intros Hn Hr Hi Hg Hc. unfold handleFormSubmit.
  unfold bind at 1. unfold preventDefault, modify.
  unfold bind at 1. unfold gets. cbn [newRamenForm].
  unfold bind at 1. unfold lift.
  rewrite (newRamen_values _ _ _ _ _ _ Hn Hr Hi Hg Hc).
  reflexivity.
Qed.

Lemma handleFormSubmit_run st name restaurant image rating comment :
  value_of (newRamenForm st) "new-name" = Normal name ->
  value_of (newRamenForm st) "new-restaurant" = Normal restaurant ->
  value_of (newRamenForm st) "new-image" = Normal image ->
  value_of (newRamenForm st) "new-rating" = Normal rating ->
  value_of (newRamenForm st) "new-comment" = Normal comment ->
  named (newRamenForm st) "reset" = Absent ->
  handleFormSubmit st
  = (Normal tt,
     mkPage (ramenMenuDiv st ++ [inert image name])
       (detail st) (reset (newRamenForm st)) true (console st) (requests st)).
Proof.
  intros Hn Hr Hi Hg Hc Hreset.
  rewrite (handleFormSubmit_reaches_reset st _ _ _ _ _ Hn Hr Hi Hg Hc).
  unfold call_reset. cbn [newRamenForm]. now rewrite Hreset.
Qed.

Lemma handleFormSubmit_shadowed st name restaurant image rating comment :
  value_of (newRamenForm st) "new-name" = Normal name ->
  value_of (newRamenForm st) "new-restaurant" = Normal restaurant ->
  value_of (newRamenForm st) "new-image" = Normal image ->
  value_of (newRamenForm st) "new-rating" = Normal rating ->
  value_of (newRamenForm st) "new-comment" = Normal comment ->
  named (newRamenForm st) "reset" <> Absent ->
  handleFormSubmit st
  = (Throw TypeError,
     mkPage (ramenMenuDiv st ++ [inert image name])
       (detail st) (newRamenForm st) true (console st) (requests st)).
Proof.
  intros Hn Hr Hi Hg Hc Hreset.
  rewrite (handleFormSubmit_reaches_reset st _ _ _ _ _ Hn Hr Hi Hg Hc).
  unfold call_reset. cbn [newRamenForm].
  now destruct (named (newRamenForm st) "reset").
Qed.

Lemma handleFormSubmit_throws st e :
  newRamen (newRamenForm st) = Throw e ->
  handleFormSubmit st = (Throw e, snd (preventDefault st)).
Proof.
  intros H. unfold handleFormSubmit.
  unfold bind at 1. unfold preventDefault, modify.
  unfold bind at 1. unfold gets. cbn [newRamenForm].
  unfold bind at 1. unfold lift. now rewrite H.
Qed.

Lemma reset_shape form : map shape (reset form) = map shape form.
Proof. unfold reset. rewrite map_map. apply map_ext. now intros []. Qed.

Lemma reset_defaults form :
  Forall (fun c => control_value c = control_default c) (reset form).
Proof.
  unfold reset. apply Forall_forall. intros c Hc.
  apply in_map_iff in Hc. now destruct Hc as (c0 & <- & _).
Qed.

Lemma complete_cases form :
  (complete form = true /\
   exists n r i g c,
     value_of form "new-name" = Normal n /\
     value_of form "new-restaurant" = Normal r /\
     value_of form "new-image" = Normal i /\
     value_of form "new-rating" = Normal g /\
     value_of form "new-comment" = Normal c) \/
  (complete form = false /\ newRamen form = Throw TypeError).
Proof.
  unfold complete, field_keys, newRamen, value_of. cbn [forallb].
  destruct (named form "new-name"); cbn [andb cbind]; [right; now split| |];
  (destruct (named form "new-restaurant"); cbn [andb cbind]; [right; now split| |]);
  (destruct (named form "new-image"); cbn [andb cbind]; [right; now split| |]);
  (destruct (named form "new-rating"); cbn [andb cbind]; [right; now split| |]);
  (destruct (named form "new-comment"); cbn [andb cbind]; [right; now split| |]);
  left; (split; [reflexivity|]); do 5 eexists; repeat split.
Qed.

Lemma complete_present form :
  Forall (fun key => named form key <> Absent) field_keys -> complete form = true.
Proof.
  intros H. unfold complete. apply forallb_forall. intros key Hk.
  pose proof (proj1 (Forall_forall _ _) H key Hk) as Hp. cbv beta in Hp.
  destruct (named form key); [congruence | reflexivity | reflexivity].
Qed.

Lemma complete_absent form :
  Exists (fun key => named form key = Absent) field_keys -> complete form = false.
Proof.
  intros H. apply Exists_exists in H. destruct H as (key & Hk & Ha).
  destruct (complete form) eqn:E; [|reflexivity].
  unfold complete in E. pose proof (proj1 (forallb_forall _ _) E key Hk) as Hp.
  cbv beta in Hp, Ha. rewrite Ha in Hp. discriminate.
Qed.




(** C6, as stated, fails: on a form whose controls are named [name],
    [restaurant], [image], [rating] and [comment] and carry those
    values, the handler finds nothing under the keys it looks up, and
    the object literal raises a TypeError, no item being constructed. *)
Lemma newRamen_misses_controls_named_after_fields :
  spec_value_named by_name_only "name" = Some "Miso" /\
  spec_value_named by_name_only "restaurant" = Some "Ichiran" /\
  spec_value_named by_name_only "image" = Some "b.jpg" /\
  spec_value_named by_name_only "rating" = Some "7" /\
  spec_value_named by_name_only "comment" = Some "rich" /\
  newRamen by_name_only = Throw TypeError /\
  newRamen by_name_only
  <> Normal (VObj [("name", VStr "Miso"); ("restaurant", VStr "Ichiran");
                   ("image", VStr "b.jpg"); ("rating", VStr "7");
                   ("comment", VStr "rich")]).
Proof. repeat split. discriminate. Qed.

(** C6, amended.  The local append handler reads its five values from
    the submitting form under the keys [new-name], [new-restaurant],
    [new-image], [new-rating] and [new-comment], a control answering to
    a key by its [id] or its [name].  Where each key can be read, the
    item constructed has the fields [name], [restaurant], [image],
    [rating] and [comment], each holding what was read as the very same
    text (the value of the control where one control answers, the
    empty text where several do), and has no [id].  Where one of the
    keys cannot be read, no control answering to it, the handler raises
    a TypeError and constructs no item. *)
Theorem newRamen_reads_keyed_controls form :
  (forall name restaurant image rating comment,
     read form "new-name" = Some name ->
     read form "new-restaurant" = Some restaurant ->
     read form "new-image" = Some image ->
     read form "new-rating" = Some rating ->
     read form "new-comment" = Some comment ->
     newRamen form
     = Normal (VObj [("name", VStr name); ("restaurant", VStr restaurant);
                     ("image", VStr image); ("rating", VStr rating);
                     ("comment", VStr comment)]) /\
     cbind (newRamen form) (fun ramen => Get ramen "id") = Normal VUndefined) /\
  ((exists key, In key field_keys /\ read form key = None) ->
   newRamen form = Throw TypeError).
Proof.
  split.
  - intros n r i g c Hn Hr Hi Hg Hc.
    assert (H : newRamen form
                = Normal (VObj [("name", VStr n); ("restaurant", VStr r);
                                ("image", VStr i); ("rating", VStr g);
                                ("comment", VStr c)])).
    { apply newRamen_values; rewrite value_of_read;
        [now rewrite Hn | now rewrite Hr | now rewrite Hi | now rewrite Hg | now rewrite Hc]. }
    split; [exact H | now rewrite H].
  - intros (key & Hk & Hnone).
    assert (Ha : named form key = Absent).
    { pose proof (value_of_read form key) as Hv. rewrite Hnone in Hv.
      unfold value_of in Hv. now destruct (named form key). }
    destruct (complete_cases form) as [[Hc _]|[_ Ht]]; [|exact Ht].
    rewrite complete_absent in Hc; [discriminate|].
    apply Exists_exists. now exists key.
Qed.

Lemma newRamen_reads_keyed_controls_witness :
  newRamen doubled
  = Normal (VObj [("name", VStr ""); ("restaurant", VStr "Ichiran");
                  ("image", VStr "b.jpg"); ("rating", VStr "7");
                  ("comment", VStr "rich")]) /\
  newRamen no_comment = Throw TypeError.
Proof.
  split.
  - apply (newRamen_reads_keyed_controls doubled); reflexivity.
  - apply (newRamen_reads_keyed_controls no_comment).
    exists "new-comment". split; [|reflexivity]. cbn. tauto.
Defined.

(** C7, as stated, fails: on a form that lacks the comment field the
    object literal raises a TypeError instead of giving the item an
    empty comment, and the handler is left by that exception with the
    menu container and the form as they were. *)
Lemma handleFormSubmit_absent_field_raises :
  named no_comment "new-comment" = Absent /\
  newRamen no_comment = Throw TypeError /\
  newRamen no_comment
  <> Normal (VObj [("name", VStr (spec_field_or_empty no_comment "new-name"));
                   ("restaurant", VStr (spec_field_or_empty no_comment "new-restaurant"));
                   ("image", VStr (spec_field_or_empty no_comment "new-image"));
                   ("rating", VStr (spec_field_or_empty no_comment "new-rating"));
                   ("comment", VStr (spec_field_or_empty no_comment "new-comment"))]) /\
  handleFormSubmit (with_form no_comment blank)
  = (Throw TypeError, mkPage [] (mkDetail "" "" "" "" "" "") no_comment true [] []).
Proof. repeat split. discriminate. Qed.

(** C7, amended.  On a form in which each of the five keys designates
    something, field extraction and item construction raise no
    exception, and the handler goes on to append its node; on a form
    from which one of them is absent the extraction raises a TypeError,
    nothing being put in the place of the missing value, and the
    handler is left by that exception before it appends a node or
    resets the form. *)
Theorem newRamen_raises_when_field_absent form :
  (Forall (fun key => named form key <> Absent) field_keys ->
   (exists ramen, newRamen form = Normal ramen) /\
   forall st, newRamenForm st = form ->
     exists image name,
       ramenMenuDiv (snd (handleFormSubmit st))
       = (ramenMenuDiv st ++ [inert image name])%list) /\
  (Exists (fun key => named form key = Absent) field_keys ->
   newRamen form = Throw TypeError /\
   forall st, newRamenForm st = form ->
     handleFormSubmit st = (Throw TypeError, snd (preventDefault st)) /\
     ramenMenuDiv (snd (handleFormSubmit st)) = ramenMenuDiv st /\
     newRamenForm (snd (handleFormSubmit st)) = newRamenForm st).
Proof.
  split.
  - intros Hall. pose proof (complete_present form Hall) as Hc.
    destruct (complete_cases form)
      as [[_ (n & r & i & g & c & Hn & Hr & Hi & Hg & Hcm)]|[Hc' _]]; [|congruence].
    split.
    + eexists. now apply (newRamen_values form n r i g c).
    + intros st <-. exists i, n.
      rewrite (handleFormSubmit_reaches_reset st n r i g c Hn Hr Hi Hg Hcm).
      unfold call_reset. cbn [newRamenForm].
      now destruct (named (newRamenForm st) "reset").
  - intros Hex. pose proof (complete_absent form Hex) as Hc.
    destruct (complete_cases form) as [[Hc' _]|[_ Hthrow]]; [congruence|].
    split; [exact Hthrow|].
    intros st <-. rewrite (handleFormSubmit_throws _ _ Hthrow). repeat split.
Qed.

Lemma newRamen_raises_when_field_absent_witness :
  (exists ramen, newRamen filled = Normal ramen) /\
  newRamen no_comment = Throw TypeError.
Proof.
  split.
  - apply (newRamen_raises_when_field_absent filled).
    unfold field_keys. repeat constructor; discriminate.
  - apply (newRamen_raises_when_field_absent no_comment).
    unfold field_keys. do 4 apply Exists_cons_tl. apply Exists_cons_hd. reflexivity.
Defined.

(** ** The collection loader, on every reply *)

Lemma each_ramen_is_callback server :
  displayRamens server
  = try_catch
      (response <- fetch server (baseURL ++ "/ramens") ;;
       ramens <- checked_json response ;;
       set_innerHTML [] ;;
       forEach ramens each_ramen)
      (fun error =>
         console_error "Error fetching ramens:" [LError error] ;;
         set_innerHTML failure_markup).
Proof. reflexivity. Qed.

Lemma each_ramen_cases x st :
  (presentable x = true /\
   each_ramen x st = (Normal tt, with_menu (ramenMenuDiv st ++ [avatar x]) st)) \/
  (presentable x = false /\ exists e, each_ramen x st = (Throw e, st)).
Proof.
  unfold presentable, avatar, attribute_text, each_ramen, bind, lift.
  destruct (cbind (Get x "image") ToString) as [i|e]; [|right; split; eauto].
  destruct (cbind (Get x "name") ToString) as [n|e]; [|right; split; eauto].
  destruct (cbind (Get x "id") ToString) as [d|e]; [|right; split; eauto].
  left. split; reflexivity.
Qed.

Lemma for_each_cases items : forall st,
  (forallb presentable items = true /\
   for_each items each_ramen st
   = (Normal tt, with_menu (ramenMenuDiv st ++ map avatar items) st)) \/
  (forallb presentable items = false /\
   exists e m, for_each items each_ramen st = (Throw e, with_menu m st)).
Proof.
  induction items as [|x rest IH]; intros st; cbn [forallb for_each map].
  - left. split; [reflexivity|]. unfold ret. rewrite app_nil_r. now destruct st.
  - destruct (each_ramen_cases x st) as [[Hx Hrun]|[Hx [e Hrun]]]; rewrite Hx; cbn [andb].
    + rewrite (bind_normal _ _ _ _ _ Hrun).
      destruct (IH (with_menu (ramenMenuDiv st ++ [avatar x]) st)) as [[Hr Hrest]|[Hr (e & m & Hrest)]].
      * left. split; [exact Hr|]. rewrite Hrest. destruct st; cbn. now rewrite <- app_assoc.
      * right. split; [exact Hr|]. exists e, m. rewrite Hrest. now destruct st.
    + right. split; [reflexivity|]. exists e, (ramenMenuDiv st).
      rewrite (bind_throw _ _ _ _ _ Hrun). now destruct st.
Qed.

Lemma displayRamens_run server st :
  match collection (server (baseURL ++ "/ramens")) with
  | Some items =>
      displayRamens server st
      = (Normal tt, with_menu (map avatar items) (requesting (baseURL ++ "/ramens") st))
  | None =>
      exists e,
        displayRamens server st
        = (Normal tt,
           with_menu failure_markup
             (logging ("Error fetching ramens:", [LError e])
                (requesting (baseURL ++ "/ramens") st)))
  end.
Proof.
  rewrite each_ramen_is_callback.
  destruct (server (baseURL ++ "/ramens")) as [|s p] eqn:E; cbn [collection].
  - exists TypeError. unfold try_catch, bind, fetch. rewrite E. now destruct st.
  - destruct ((200 <=? s) && (s <=? 299)) eqn:Hok.
    2:{ destruct p as [|[]]; cbn [andb];
        exists (Error ("HTTP error! status: " ++ Number_toString (Int s)));
        unfold try_catch, bind, fetch, checked_json, ok; rewrite E;
        cbn [status payload]; rewrite Hok; now destruct st. }
    assert (Hjson : forall st0, checked_json (mkResponse s p) st0 = json (mkResponse s p) st0).
    { intros st0. unfold checked_json, ok. cbn [status]. now rewrite Hok. }
    unfold try_catch, bind, fetch. rewrite E. rewrite Hjson.
    unfold json, throw, ret, set_innerHTML, modify. cbn [payload andb].
    destruct p as [|v]; [exists SyntaxError; now destruct st|].
    destruct v; try (exists TypeError; now destruct st).
    unfold forEach.
    match goal with
    | |- context [for_each elems each_ramen ?s0] =>
        destruct (for_each_cases elems s0) as [[Hall Hrun]|[Hall (e & m & Hrun)]]
    end; rewrite Hall, Hrun.
    + now destruct st.
    + exists e. now destruct st.
Qed.

Lemma displayRamens_frame server st :
  let st' := snd (displayRamens server st) in
  fst (displayRamens server st) = Normal tt /\
  requests st' = (requests st ++ [(baseURL ++ "/ramens")%string])%list /\
  detail st' = detail st /\
  newRamenForm st' = newRamenForm st /\
  defaultPrevented st' = defaultPrevented st.
Proof.
  pose proof (displayRamens_run server st) as H.
  destruct (collection (server (baseURL ++ "/ramens"))) as [items|].
  - cbv zeta. rewrite H. now destruct st.
  - destruct H as [e H]. cbv zeta. rewrite H. now destruct st.
Qed.

(** X1.  Every reply allowed for, the collection loader completes: no exception
    leaves it, exactly one request goes out, to the collection endpoint,
    and neither the detail view nor the form is touched. *)
Theorem displayRamens_always_completes server st :
  let st' := snd (displayRamens server st) in
  fst (displayRamens server st) = Normal tt /\
  requests st' = (requests st ++ [(baseURL ++ "/ramens")%string])%list /\
  detail st' = detail st /\
  newRamenForm st' = newRamenForm st /\
  defaultPrevented st' = defaultPrevented st.
Proof. exact (displayRamens_frame server st). Qed.

(** X2.  The menu after a load is decided by the reply alone: the nodes of the
    items, in order, when the status is a success, the body decodes to an
    array and every element of it can be presented, and nothing logged;
    in every other case (undecodable body, a body that is no array, one
    element that cannot be presented, even after others were appended)
    the failure paragraph alone, and one diagnostic logged. *)
Theorem displayRamens_menu_by_reply server st :
  let st' := snd (displayRamens server st) in
  match collection (server (baseURL ++ "/ramens")) with
  | Some items =>
      ramenMenuDiv st' = map avatar items /\ console st' = console st
  | None =>
      ramenMenuDiv st' = failure_markup /\
      exists e, console st' = (console st ++ [("Error fetching ramens:"%string, [LError e])])%list
  end.
Proof.
  pose proof (displayRamens_run server st) as H.
  destruct (collection (server (baseURL ++ "/ramens"))) as [items|].
  - cbv zeta. rewrite H. now destruct st.
  - destruct H as [e H]. cbv zeta. rewrite H. split; [now destruct st|].
    exists e. now destruct st.
Qed.

(** X3.  A load rebuilds the menu from nothing: what the container held
    before, nodes appended for submissions included, has no part in
    what it holds after. *)
Theorem displayRamens_forgets_menu server st1 st2 :
  ramenMenuDiv (snd (displayRamens server st1))
  = ramenMenuDiv (snd (displayRamens server st2)).
Proof.
  pose proof (displayRamens_run server st1) as H1.
  pose proof (displayRamens_run server st2) as H2.
  destruct (collection (server (baseURL ++ "/ramens"))) as [items|].
  - rewrite H1, H2. reflexivity.
  - destruct H1 as [e1 H1], H2 as [e2 H2]. rewrite H1, H2. reflexivity.
Qed.

(** ** The activation handler, on every reply *)

Lemma chain_decoded {A} server url (k : value -> M A) st :
  bind (fetch server url) (fun response => bind (checked_json response) k) st
  = match decoded (server url) with
    | inl e => (Throw e, requesting url st)
    | inr v => k v (requesting url st)
    end.
Proof.
  unfold bind, fetch, decoded, checked_json, ok, json, throw, ret, requesting.
  destruct (server url) as [|s p]; [reflexivity|]. cbn [status payload].
  destruct ((200 <=? s) && (s <=? 299)); cbn [negb]; [|reflexivity].
  now destruct p.
Qed.

Lemma click_error_run ramenId e st :
  (console_error ("Error fetching ramen details for ID " ++ ramenId ++ ":") [LError e] ;;
   set_detailName "Error loading details" ;;
   set_detailRestaurant "" ;;
   set_detailRating "" ;;
   set_detailComment "" ;;
   set_detailImage_src "placeholder.jpg") st
  = (Normal tt, click_error ramenId e st).
Proof. now destruct st. Qed.

Lemma handleClick_run server target ramenId st :
  dataset_id target = Some ramenId ->
  ramenId <> "" ->
  handleClick server target st
  = match decoded (server (baseURL ++ "/ramens/" ++ ramenId)) with
    | inl e => (Normal tt, click_error ramenId e (requesting (baseURL ++ "/ramens/" ++ ramenId) st))
    | inr ramen =>
        match renderDetail ramen (requesting (baseURL ++ "/ramens/" ++ ramenId) st) with
        | (Normal _, st1) => (Normal tt, st1)
        | (Throw e, st1) => (Normal tt, click_error ramenId e st1)
        end
    end.
Proof.
  intros Hid Hne. unfold handleClick. rewrite Hid.
  destruct ramenId as [|a r]; [congruence|].
  unfold try_catch. rewrite chain_decoded.
  destruct (decoded _) as [e|ramen].
  - apply click_error_run.
  - destruct (renderDetail ramen _) as [[[]|e] st1]; [reflexivity|].
    apply click_error_run.
Qed.

(** The detail presenter writes to the detail view and the console
    only, whether it completes or not. *)
Lemma renderDetail_frame ramen st :
  ramenMenuDiv (snd (renderDetail ramen st)) = ramenMenuDiv st /\
  newRamenForm (snd (renderDetail ramen st)) = newRamenForm st /\
  defaultPrevented (snd (renderDetail ramen st)) = defaultPrevented st /\
  requests (snd (renderDetail ramen st)) = requests st.
Proof.
  unfold renderDetail. destruct (truthy ramen); cbn [negb]; [|now destruct st].
  unfold bind, lift.
  destruct (cbind (Get ramen "image") ToString); [|now destruct st].
  destruct (cbind (Get ramen "name") ToString); [|now destruct st].
  destruct (cbind (Get ramen "name") ToNullableString); [|now destruct st].
  destruct (cbind (Get ramen "restaurant") ToNullableString); [|now destruct st].
  destruct (cbind (Get ramen "rating") ToNullableString); [|now destruct st].
  destruct (cbind (Get ramen "comment") ToNullableString); now destruct st.
Qed.

Lemma handleClick_unidentified server target st :
  dataset_id target = None \/ dataset_id target = Some "" ->
  handleClick server target st
  = (Normal tt, logging ("Clicked image is missing a data-id attribute.", []) st).
Proof. intros [H|H]; unfold handleClick; now rewrite H. Qed.

Lemma handleClick_frame server target st :
  let st' := snd (handleClick server target st) in
  fst (handleClick server target st) = Normal tt /\
  ramenMenuDiv st' = ramenMenuDiv st /\
  newRamenForm st' = newRamenForm st /\
  (requests st' = requests st \/
   exists ramenId,
     dataset_id target = Some ramenId /\
     requests st' = (requests st ++ [(baseURL ++ "/ramens/" ++ ramenId)%string])%list).
Proof.
  destruct (dataset_id target) as [ramenId|] eqn:Hid.
  2:{ cbv zeta. rewrite (handleClick_unidentified server target st) by auto.
      destruct st; cbn. repeat split. now left. }
  destruct (string_dec ramenId "") as [->|Hne].
  { cbv zeta. rewrite (handleClick_unidentified server target st) by auto.
    destruct st; cbn. repeat split. now left. }
  cbv zeta. rewrite (handleClick_run server target ramenId st Hid Hne).
  destruct (decoded _) as [e|ramen].
  - destruct st; cbn. repeat split. right. now exists ramenId.
  - pose proof (renderDetail_frame ramen
                  (requesting (baseURL ++ "/ramens/" ++ ramenId) st)) as (Hm & Hf & _ & Hr).
    destruct (renderDetail ramen _) as [[[]|e] st1]; cbn [fst snd] in *.
    + repeat split; [now rewrite Hm | now rewrite Hf |].
      right. exists ramenId. split; [reflexivity|]. now rewrite Hr.
    + destruct st1; cbn in *. repeat split; [now rewrite Hm | now rewrite Hf |].
      right. exists ramenId. split; [reflexivity|]. now rewrite Hr.
Qed.

(** X4.  Whatever node it is called on and whatever the remote source
    answers, the activation handler completes: no exception leaves it,
    the menu container and the form are as before, and the requests
    sent are none or the one for the stored identifier. *)
Theorem handleClick_always_completes server target st :
  let st' := snd (handleClick server target st) in
  fst (handleClick server target st) = Normal tt /\
  ramenMenuDiv st' = ramenMenuDiv st /\
  newRamenForm st' = newRamenForm st /\
  (requests st' = requests st \/
   exists ramenId,
     dataset_id target = Some ramenId /\
     requests st' = (requests st ++ [(baseURL ++ "/ramens/" ++ ramenId)%string])%list).
Proof. exact (handleClick_frame server target st). Qed.

Lemma decoded_body r s ramen :
  r = Response s (JSON ramen) -> 200 <= s <= 299 ->
  decoded r = inr ramen.
Proof.
  intros -> Hs. unfold decoded.
  replace ((200 <=? s) && (s <=? 299)) with true; [reflexivity|].
  symmetry. apply andb_true_iff. split; apply Z.leb_le; lia.
Qed.



(** X6.  When the single-item endpoint answers with a success status and a
    body that decodes to a falsy value ([null], [0], [false], the empty
    string), activation ends in the guard of the detail presenter: the
    request went out, one diagnostic names the value, and the detail
    view keeps what it showed, the error state not being entered. *)
Theorem handleClick_falsy_body server target ramenId st s ramen :
  dataset_id target = Some ramenId ->
  ramenId <> "" ->
  server (baseURL ++ "/ramens/" ++ ramenId) = Response s (JSON ramen) ->
  200 <= s <= 299 ->
  truthy ramen = false ->
  handleClick server target st
  = (Normal tt,
     logging ("renderDetail called with invalid ramen data", [LValue ramen])
       (requesting (baseURL ++ "/ramens/" ++ ramenId) st)) /\
  detail (snd (handleClick server target st)) = detail st.
Proof.
  intros Hid Hne Hreply Hs Hf.
  rewrite (handleClick_run server target ramenId st Hid Hne).
  rewrite (decoded_body _ _ _ Hreply Hs).
  rewrite (renderDetail_falsy _ _ Hf). split; reflexivity.
Qed.

Lemma handleClick_falsy_body_witness :
  detail (snd (handleClick (always VNull) shoyu_avatar blank)) = detail blank.
Proof.
  apply (handleClick_falsy_body (always VNull) shoyu_avatar "1" blank 200 VNull);
    try reflexivity; [discriminate | lia].
Defined.

(** X7.  When the single-item endpoint answers with a success status and a
    body that does not decode, activation ends in the error state as
    for a failed fetch: the four text slots and the image source are
    those of the error state, and the diagnostic carries the decoding
    error. *)
Theorem handleClick_undecodable_body server target ramenId st s :
  dataset_id target = Some ramenId ->
  ramenId <> "" ->
  server (baseURL ++ "/ramens/" ++ ramenId) = Response s NotJSON ->
  200 <= s <= 299 ->
  handleClick server target st
  = (Normal tt,
     click_error ramenId SyntaxError (requesting (baseURL ++ "/ramens/" ++ ramenId) st)) /\
  detail (snd (handleClick server target st))
  = mkDetail "placeholder.jpg" (detailImage_alt (detail st)) "Error loading details" "" "" "".
Proof.
  intros Hid Hne Hreply Hs.
  rewrite (handleClick_run server target ramenId st Hid Hne).
  unfold decoded. rewrite Hreply.
  replace ((200 <=? s) && (s <=? 299)) with true
    by (symmetry; apply andb_true_iff; split; apply Z.leb_le; lia).
  split; [reflexivity | now destruct st].
Qed.

Lemma handleClick_undecodable_body_witness :
  detail (snd (handleClick garbled shoyu_avatar blank))
  = mkDetail "placeholder.jpg" (detailImage_alt (detail blank)) "Error loading details" "" "" "".
Proof.
  apply (handleClick_undecodable_body garbled shoyu_avatar "1" blank 200);
    try reflexivity; [discriminate | lia].
Defined.

(** X8.  When the fetched record makes the detail presenter throw, a field
    of it having no text, the slots the presenter had already written
    do not stay: activation ends in the error state, the diagnostic
    carrying the presenter's exception. *)
Theorem handleClick_unreadable_record server target ramenId st s ramen e :
  dataset_id target = Some ramenId ->
  ramenId <> "" ->
  server (baseURL ++ "/ramens/" ++ ramenId) = Response s (JSON ramen) ->
  200 <= s <= 299 ->
  fst (renderDetail ramen (requesting (baseURL ++ "/ramens/" ++ ramenId) st)) = Throw e ->
  let st' := snd (handleClick server target st) in
  fst (handleClick server target st) = Normal tt /\
  detailName (detail st') = "Error loading details" /\
  detailRestaurant (detail st') = "" /\
  detailRating (detail st') = "" /\
  detailComment (detail st') = "" /\
  detailImage_src (detail st') = "placeholder.jpg" /\
  console st'
  = (console st
     ++ [(("Error fetching ramen details for ID " ++ ramenId ++ ":")%string, [LError e])])%list.
Proof.
  intros Hid Hne Hreply Hs Hthrow. cbv zeta.
  rewrite (handleClick_run server target ramenId st Hid Hne).
  rewrite (decoded_body _ _ _ Hreply Hs).
  assert (Hconsole : console (snd (renderDetail ramen
                        (requesting (baseURL ++ "/ramens/" ++ ramenId) st))) = console st).
  { revert Hthrow. unfold renderDetail.
    destruct (truthy ramen); cbn [negb]; [|discriminate].
    unfold bind, lift.
    destruct (cbind (Get ramen "image") ToString); [|now destruct st].
    destruct (cbind (Get ramen "name") ToString); [|now destruct st].
    destruct (cbind (Get ramen "name") ToNullableString); [|now destruct st].
    destruct (cbind (Get ramen "restaurant") ToNullableString); [|now destruct st].
    destruct (cbind (Get ramen "rating") ToNullableString); [|now destruct st].
    destruct (cbind (Get ramen "comment") ToNullableString); now destruct st. }
  destruct (renderDetail ramen _) as [[[]|e'] st1]; cbn [fst snd] in *; [discriminate|].
  injection Hthrow as ->. destruct st1; cbn in *. repeat split. now rewrite Hconsole.
Qed.

Lemma handleClick_unreadable_record_witness :
  detailName (detail (snd (handleClick (always unreadable) shoyu_avatar blank)))
  = "Error loading details".
Proof.
  apply (handleClick_unreadable_record (always unreadable) shoyu_avatar "1" blank 200
           unreadable TypeError);
    try reflexivity; [discriminate | lia].
Defined.

Lemma handleClick_empty_identifier_witness :
  handleClick remote blank_id_avatar blank
  = (Normal tt, logging ("Clicked image is missing a data-id attribute.", []) blank).
Proof.
  apply (handleClick_empty_identifier remote blank_id_avatar blank). reflexivity.
Defined.

Lemma handleClick_requests server target ramenId st :
  dataset_id target = Some ramenId ->
  ramenId <> "" ->
  requests (snd (handleClick server target st))
  = (requests st ++ [(baseURL ++ "/ramens/" ++ ramenId)%string])%list.
Proof.
  intros Hid Hne. rewrite (handleClick_run server target ramenId st Hid Hne).
  destruct (decoded _) as [e|ramen]; [now destruct st|].
  pose proof (renderDetail_frame ramen
                (requesting (baseURL ++ "/ramens/" ++ ramenId) st)) as (_ & _ & _ & Hr).
  destruct (renderDetail ramen _) as [[[]|e] st1]; cbn [fst snd] in *.
  - now rewrite Hr.
  - destruct st1; cbn in *. now rewrite Hr.
Qed.

(** Activating a node the loader made runs [handleClick] on it, once. *)
Lemma click_avatar server ramen st :
  click server (avatar ramen) st
  = (Normal tt, snd (handleClick server (avatar ramen) st)).
Proof.
  unfold click, avatar. cbn [listeners dispatch String.eqb Ascii.eqb Bool.eqb].
  unfold bind, reported, call, ret. reflexivity.
Qed.

Lemma load_then_click server st items k ramen id :
  collection (server (baseURL ++ "/ramens")) = Some items ->
  nth_error items k = Some ramen ->
  attribute_text ramen "id" = Some id ->
  id <> "" ->
  nth_error (ramenMenuDiv (snd (displayRamens server st))) k = Some (avatar ramen) /\
  dataset_id (avatar ramen) = Some id /\
  requests (snd (click server (avatar ramen) (snd (displayRamens server st))))
  = (requests st ++ [(baseURL ++ "/ramens")%string; (baseURL ++ "/ramens/" ++ id)%string])%list.
Proof.
  intros Hc Hk Hid Hne.
  pose proof (displayRamens_run server st) as Hrun. rewrite Hc in Hrun.
  assert (Hd : dataset_id (avatar ramen) = Some id) by (unfold avatar; cbn; now rewrite Hid).
  rewrite Hrun. cbn [snd]. repeat split.
  - destruct st; cbn. now apply map_nth_error.
  - exact Hd.
  - rewrite click_avatar. cbn [snd].
    rewrite (handleClick_requests server (avatar ramen) id _ Hd Hne).
    destruct st; cbn. now rewrite <- app_assoc.
Qed.




(** X11.  An item that comes without [id] is rendered all the same: its node
    stores the text "undefined", listens for clicks, and activating it
    asks the remote source for the item of that name. *)
Theorem item_without_id_is_requested_as_undefined server st items k ramen :
  collection (server (baseURL ++ "/ramens")) = Some items ->
  nth_error items k = Some ramen ->
  Get ramen "id" = Normal VUndefined ->
  let st1 := snd (displayRamens server st) in
  exists node,
    nth_error (ramenMenuDiv st1) k = Some node /\
    dataset_id node = Some "undefined" /\
    listeners node = [("click"%string, HandleClick)] /\
    requests (snd (click server node st1))
    = (requests st
       ++ [(baseURL ++ "/ramens")%string; (baseURL ++ "/ramens/undefined")%string])%list.
Proof.
  intros Hc Hk Hid. cbv zeta.
  assert (Ht : attribute_text ramen "id" = Some "undefined")
    by (unfold attribute_text; now rewrite Hid).
  destruct (load_then_click server st items k ramen "undefined" Hc Hk Ht ltac:(discriminate))
    as (Hn & Hd & Hr).
  exists (avatar ramen). repeat split; assumption.
Qed.

Lemma item_without_id_is_requested_as_undefined_witness :
  exists node,
    nth_error (ramenMenuDiv (snd (displayRamens (always (VArr [unnumbered])) blank))) 0
    = Some node /\
    dataset_id node = Some "undefined".
Proof.
  destruct (item_without_id_is_requested_as_undefined (always (VArr [unnumbered])) blank
              [unnumbered] 0 unnumbered eq_refl eq_refl eq_refl)
    as (node & Hn & Hd & _).
  exists node. split; assumption.
Defined.

(** ** The detail presenter, on records with holes *)

(** X12.  Given a truthy value on which none of the five fields is there (an
    empty object, a number, [true], a non-empty string, an array), the
    detail presenter completes: the four text slots are emptied, and
    the image source and accessible text receive the word "undefined". *)
Theorem renderDetail_missing_fields ramen st :
  truthy ramen = true ->
  (forall k, In k ["image"; "name"; "restaurant"; "rating"; "comment"] ->
     Get ramen k = Normal VUndefined) ->
  renderDetail ramen st
  = (Normal tt, with_detail (mkDetail "undefined" "Image of undefined" "" "" "" "") st).
Proof.
  intros Ht Hget. unfold renderDetail. rewrite Ht. cbn [negb].
  unfold bind, lift.
  rewrite !Hget by (cbn; tauto).
  now destruct st.
Qed.

Lemma renderDetail_missing_fields_witness :
  renderDetail (VObj []) blank
  = (Normal tt, with_detail (mkDetail "undefined" "Image of undefined" "" "" "" "") blank).
Proof.
  apply (renderDetail_missing_fields (VObj []) blank); [reflexivity|].
  intros k _. reflexivity.
Defined.

(** ** The local append handler, on every form *)

Lemma handleFormSubmit_outcomes st :
  let st' := snd (handleFormSubmit st) in
  requests st' = requests st /\
  detail st' = detail st /\
  console st' = console st /\
  defaultPrevented st' = true /\
  ((complete (newRamenForm st) = false /\
    fst (handleFormSubmit st) = Throw TypeError /\
    newRamenForm st' = newRamenForm st /\
    ramenMenuDiv st' = ramenMenuDiv st) \/
   (complete (newRamenForm st) = true /\
    named (newRamenForm st) "reset" = Absent /\
    fst (handleFormSubmit st) = Normal tt /\
    map shape (newRamenForm st') = map shape (newRamenForm st) /\
    Forall (fun c => control_value c = control_default c) (newRamenForm st') /\
    exists image name, ramenMenuDiv st' = (ramenMenuDiv st ++ [inert image name])%list) \/
   (complete (newRamenForm st) = true /\
    named (newRamenForm st) "reset" <> Absent /\
    fst (handleFormSubmit st) = Throw TypeError /\
    newRamenForm st' = newRamenForm st /\
    exists image name, ramenMenuDiv st' = (ramenMenuDiv st ++ [inert image name])%list)).
Proof.
  cbv zeta.
  destruct (complete_cases (newRamenForm st))
    as [[Hc (n & r & i & g & c & Hn & Hr & Hi & Hg & Hcm)]|[Hc Hthrow]].
  - destruct (named (newRamenForm st) "reset") eqn:Hreset.
    + rewrite (handleFormSubmit_run st n r i g c Hn Hr Hi Hg Hcm Hreset). cbn [fst snd].
      repeat split. right. left. cbn [newRamenForm ramenMenuDiv].
      repeat split; [exact Hc | apply reset_shape | apply reset_defaults | now exists i, n].
    + rewrite (handleFormSubmit_shadowed st n r i g c Hn Hr Hi Hg Hcm)
        by (rewrite Hreset; discriminate).
      cbn [fst snd]. repeat split. right. right. cbn [newRamenForm ramenMenuDiv].
      repeat split; [exact Hc | discriminate | now exists i, n].
    + rewrite (handleFormSubmit_shadowed st n r i g c Hn Hr Hi Hg Hcm)
        by (rewrite Hreset; discriminate).
      cbn [fst snd]. repeat split. right. right. cbn [newRamenForm ramenMenuDiv].
      repeat split; [exact Hc | discriminate | now exists i, n].
  - rewrite (handleFormSubmit_throws st _ Hthrow). cbn.
    repeat split. left. now repeat split.
Qed.

(** X13.  Whatever the form holds, the local append handler sends no request,
    writes nothing to the detail view or the console, and has prevented
    the default action of the submission when it is left.  It is left
    in one of three ways.  One of the five keys designating nothing: by
    a TypeError, with the menu and the form as they were.  The five
    keys all designating something and nothing answering to [reset]:
    normally, with one inert image appended to the menu and the form
    holding the same controls at their default values.  The five keys
    all designating something and a control answering to [reset]: by a
    TypeError at the call of [reset], with the inert image appended
    and the form as it was. *)
Theorem handleFormSubmit_three_ways st :
  let st' := snd (handleFormSubmit st) in
  requests st' = requests st /\
  detail st' = detail st /\
  console st' = console st /\
  defaultPrevented st' = true /\
  ((complete (newRamenForm st) = false /\
    fst (handleFormSubmit st) = Throw TypeError /\
    newRamenForm st' = newRamenForm st /\
    ramenMenuDiv st' = ramenMenuDiv st) \/
   (complete (newRamenForm st) = true /\
    named (newRamenForm st) "reset" = Absent /\
    fst (handleFormSubmit st) = Normal tt /\
    map shape (newRamenForm st') = map shape (newRamenForm st) /\
    Forall (fun c => control_value c = control_default c) (newRamenForm st') /\
    exists image name, ramenMenuDiv st' = (ramenMenuDiv st ++ [inert image name])%list) \/
   (complete (newRamenForm st) = true /\
    named (newRamenForm st) "reset" <> Absent /\
    fst (handleFormSubmit st) = Throw TypeError /\
    newRamenForm st' = newRamenForm st /\
    exists image name, ramenMenuDiv st' = (ramenMenuDiv st ++ [inert image name])%list)).
Proof. exact (handleFormSubmit_outcomes st). Qed.

(** X15.  Whatever it is given, [addNewRamenToMenu] either appends one image
    that stores no identifier and has no listener, an [id] of the value
    it was given playing no part, or throws with the page as it was. *)
Theorem addNewRamenToMenu_appends_inert_or_nothing ramenData st :
  (exists image name,
     attribute_text ramenData "image" = Some image /\
     attribute_text ramenData "name" = Some name /\
     addNewRamenToMenu ramenData st
     = (Normal tt, with_menu (ramenMenuDiv st ++ [inert image name]) st)) \/
  (exists e, addNewRamenToMenu ramenData st = (Throw e, st)).
Proof.
  unfold addNewRamenToMenu, attribute_text, bind, lift.
  destruct (cbind (Get ramenData "image") ToString) as [image|e]; [|right; now exists e].
  destruct (cbind (Get ramenData "name") ToString) as [name|e]; [|right; now exists e].
  left. exists image, name. repeat split.
Qed.

Lemma filter_answers_shape key : forall form form',
  map shape form = map shape form' ->
  length (filter (answers_to key) form) = length (filter (answers_to key) form').
Proof.
  induction form as [|c rest IH]; intros [|c' rest'] H; try discriminate; [reflexivity|].
  cbn [map] in H. injection H as Hid Hname _ Hrest. cbn [filter].
  assert (Ha : answers_to key c = answers_to key c').
  { unfold answers_to. now rewrite Hid, Hname. }
  rewrite Ha. destruct (answers_to key c'); cbn [length]; now rewrite (IH rest').
Qed.

Lemma named_shape key form form' :
  map shape form = map shape form' ->
  (match named form key with Absent => false | _ => true end)
  = (match named form' key with Absent => false | _ => true end).
Proof.
  intros H. pose proof (filter_answers_shape key form form' H) as Hl.
  unfold named.
  destruct (filter (answers_to key) form) as [|a [|b l]];
    destruct (filter (answers_to key) form') as [|a' [|b' l']]; cbn in Hl; congruence.
Qed.

Lemma complete_shape form form' :
  map shape form = map shape form' -> complete form = complete form'.
Proof.
  intros H. unfold complete, field_keys. cbn [forallb].
  now rewrite !(named_shape _ form form' H).
Qed.

Lemma fill_shape v : forall k form, map shape (fill k v form) = map shape form.
Proof.
  intros k form. revert k.
  induction form as [|c rest IH]; intros [|k]; cbn; try reflexivity.
  now rewrite IH.
Qed.

Lemma value_of_reset_Single form key c :
  named form key = Single c ->
  value_of (reset form) key = Normal (control_default c).
Proof.
  unfold value_of, named, reset. intros H.
  assert (Hf : filter (answers_to key)
                 (map (fun c => mkControl (control_id c) (control_name c)
                                  (control_default c) (control_default c)) form)
               = map (fun c => mkControl (control_id c) (control_name c)
                                  (control_default c) (control_default c))
                   (filter (answers_to key) form)).
  { clear H. induction form as [|a rest IH]; [reflexivity|]. cbn [map filter].
    change (answers_to key (mkControl (control_id a) (control_name a)
                              (control_default a) (control_default a)))
      with (answers_to key a).
    destruct (answers_to key a); cbn [map]; now rewrite IH. }
  rewrite Hf.
  destruct (filter (answers_to key) form) as [|a [|b l]]; try discriminate.
  now injection H as ->.
Qed.

(** X14.  A submission leaves the form fit for the next: on a form in which
    the five keys all designate something and nothing answers to
    [reset], a second submission with nothing typed in between
    completes as well, and appends a second inert image, made of what
    the reset left in the fields, the image field's default value where
    one control answers to [new-image]. *)
Theorem handleFormSubmit_twice st :
  complete (newRamenForm st) = true ->
  named (newRamenForm st) "reset" = Absent ->
  let st1 := snd (handleFormSubmit st) in
  let st2 := snd (handleFormSubmit st1) in
  fst (handleFormSubmit st) = Normal tt /\
  fst (handleFormSubmit st1) = Normal tt /\
  exists image1 name1 image2 name2,
    ramenMenuDiv st2
    = (ramenMenuDiv st ++ [inert image1 name1; inert image2 name2])%list /\
    (forall c, named (newRamenForm st) "new-image" = Single c -> image2 = control_default c).
Proof.
  intros Hc Hreset. cbv zeta.
  destruct (complete_cases (newRamenForm st))
    as [[_ (n & r & i & g & c & Hn & Hr & Hi & Hg & Hcm)]|[Hc' _]]; [|congruence].
  rewrite (handleFormSubmit_run st n r i g c Hn Hr Hi Hg Hcm Hreset). cbn [fst snd].
  set (st1 := mkPage _ _ _ _ _ _).
  assert (Hc1 : complete (newRamenForm st1) = true).
  { subst st1. cbn [newRamenForm]. now rewrite (complete_shape _ _ (reset_shape _)). }
  assert (Hreset1 : named (newRamenForm st1) "reset" = Absent).
  { subst st1. cbn [newRamenForm].
    pose proof (named_shape "reset" _ _ (reset_shape (newRamenForm st))) as H.
    rewrite Hreset in H. now destruct (named (reset (newRamenForm st)) "reset"). }
  destruct (complete_cases (newRamenForm st1))
    as [[_ (n2 & r2 & i2 & g2 & c2 & Hn2 & Hr2 & Hi2 & Hg2 & Hcm2)]|[Hc' _]]; [|congruence].
  rewrite (handleFormSubmit_run st1 n2 r2 i2 g2 c2 Hn2 Hr2 Hi2 Hg2 Hcm2 Hreset1).
  cbn [fst snd].
  split; [reflexivity|]. split; [reflexivity|]. exists i, n, i2, n2. split.
  - subst st1. cbn [ramenMenuDiv]. now rewrite <- app_assoc.
  - intros c0 Hs. subst st1. cbn [newRamenForm] in Hi2.
    rewrite (value_of_reset_Single _ _ _ Hs) in Hi2. congruence.
Qed.

Lemma handleFormSubmit_twice_witness :
  exists image1 name1 image2 name2,
    ramenMenuDiv (snd (handleFormSubmit (snd (handleFormSubmit (with_form prefilled blank)))))
    = [inert image1 name1; inert image2 name2] /\
    image2 = "default.jpg".
Proof.
  destruct (handleFormSubmit_twice (with_form prefilled blank) eq_refl eq_refl)
    as (_ & _ & i1 & n1 & i2 & n2 & Hm & Hd).
  exists i1, n1, i2, n2. split; [exact Hm|].
  apply (Hd (mkControl "new-image" "image" "b.jpg" "default.jpg")). reflexivity.
Defined.

(** ** Bootstrap *)

Lemma displayRamens_normal server st : fst (displayRamens server st) = Normal tt.
Proof.
  pose proof (displayRamens_run server st) as H.
  destruct (collection _); [|destruct H as [e H]]; now rewrite H.
Qed.

Lemma main_run server w :
  main server w
  = (Normal tt,
     mkApp (snd (displayRamens server (view w)))
       (addEventListener "submit" HandleFormSubmit (formElement w))).
Proof.
  unfold main, on_view. pose proof (displayRamens_normal server (view w)) as H.
  destruct (displayRamens server (view w)) as [[[]|e] v]; cbn in H; [reflexivity|discriminate].
Qed.


Lemma dispatch_submit_armed server target st :
  dispatch server "submit" [("submit", HandleFormSubmit)] target st
  = (Normal tt, snd (handleFormSubmit st)).
Proof.
  cbn [dispatch String.eqb Ascii.eqb Bool.eqb]. unfold bind, reported, call, ret. reflexivity.
Qed.




(** The two calls of [main] do not meet: the page is the same whether
    the chain of the load is run before the listener is registered or
    after. *)
Lemma main_order_is_immaterial server w :
  main server w = on_view (displayRamens server) (snd (addSubmitListener w)).
Proof.
  rewrite main_run. unfold on_view, addSubmitListener. cbn [snd view formElement].
  pose proof (displayRamens_normal server (view w)) as H.
  destruct (displayRamens server (view w)) as [[[]|e] v]; cbn in H; [reflexivity|discriminate].
Qed.

(** ** A visit *)

Lemma click_frame server node st :
  wired node = true ->
  fst (click server node st) = Normal tt /\
  ramenMenuDiv (snd (click server node st)) = ramenMenuDiv st /\
  newRamenForm (snd (click server node st)) = newRamenForm st /\
  exists urls,
    requests (snd (click server node st)) = (requests st ++ urls)%list /\
    Forall item_address urls /\
    (length urls <= 1)%nat.
Proof.
  unfold wired, click. intros Hw.
  destruct (listeners node) as [|[type h] [|l ls]]; [| |destruct h; discriminate].
  - cbn. repeat split. exists []. rewrite app_nil_r.
    split; [reflexivity|]. split; [constructor | cbn; lia].
  - destruct h; [|discriminate]. apply String.eqb_eq in Hw. subst type.
    cbn [dispatch String.eqb Ascii.eqb Bool.eqb]. unfold bind, reported, call, ret.
    cbn [fst snd].
    destruct (handleClick_frame server node st) as (_ & Hm & Hf & Hr).
    cbv zeta in Hm, Hf, Hr.
    split; [reflexivity|]. split; [exact Hm|]. split; [exact Hf|].
    destruct Hr as [Hr|(id & _ & Hr)].
    + exists []. rewrite app_nil_r.
      split; [exact Hr|]. split; [constructor | cbn; lia].
    + exists [(baseURL ++ "/ramens/" ++ id)%string].
      split; [exact Hr|]. split; [|cbn; lia].
      constructor; [now exists id | constructor].
Qed.

Lemma is_inert_wired e : is_inert e = true -> wired e = true.
Proof.
  unfold is_inert, wired. destruct (dataset_id e); [discriminate|].
  now destruct (listeners e).
Qed.

Lemma forallb_inert_wired locals :
  forallb is_inert locals = true -> forallb wired locals = true.
Proof.
  intros H. apply forallb_forall. intros e He.
  apply is_inert_wired. now apply (proj1 (forallb_forall _ _) H).
Qed.

Lemma follows_refl w : follows 0 0 w w.
Proof.
  exists [], []. rewrite !app_nil_r. repeat split; auto.
Qed.

Lemma follows_trans s1 a1 s2 a2 w1 w2 w3 :
  follows s1 a1 w1 w2 -> follows s2 a2 w2 w3 -> follows (s1 + s2) (a1 + a2) w1 w3.
Proof.
  intros (l1 & u1 & Hm1 & Hi1 & Hl1 & Hc1 & Hr1 & Ha1 & Hu1 & Hs1 & Hf1)
         (l2 & u2 & Hm2 & Hi2 & Hl2 & Hc2 & Hr2 & Ha2 & Hu2 & Hs2 & Hf2).
  exists (l1 ++ l2)%list, (u1 ++ u2)%list. repeat split.
  - now rewrite Hm2, Hm1, app_assoc.
  - rewrite forallb_app. now rewrite Hi1, Hi2.
  - rewrite length_app. lia.
  - intros Hc. rewrite length_app. rewrite (Hc1 Hc).
    rewrite Hc2; [reflexivity|]. now rewrite (complete_shape _ _ Hs1).
  - now rewrite Hr2, Hr1, app_assoc.
  - apply Forall_app. now split.
  - rewrite length_app. lia.
  - now rewrite Hs2.
  - now rewrite Hf2.
Qed.

Lemma step_follows server a w :
  armed w ->
  follows (if is_submit a then 1 else 0) (if is_activate a then 1 else 0) w (step server w a) /\
  armed (step server w a).
Proof.
  intros [Hw Hl]. destruct a as [k|k v|]; cbn [step is_submit is_activate].
  - unfold activate.
    destruct (nth_error (ramenMenuDiv (view w)) k) as [node|] eqn:Hk.
    2:{ split; [|now split]. destruct (follows_refl w) as (l & u & H).
        exists l, u. intuition lia. }
    assert (Hnode : wired node = true).
    { apply (proj1 (forallb_forall _ _) Hw). eapply nth_error_In. exact Hk. }
    destruct (click_frame server node (view w) Hnode) as (_ & Hm & Hf & urls & Hr & Ha & Hu).
    unfold on_view. destruct (click server node (view w)) as [r v]. cbn [fst snd] in *.
    split.
    + exists [], urls. rewrite app_nil_r. cbn [view formElement]. repeat split; auto.
      now rewrite Hf.
    + split; cbn [view formElement]; [now rewrite Hm | exact Hl].
  - split.
    + exists [], []. rewrite !app_nil_r. cbn [view formElement].
      destruct (view w); cbn. repeat split; auto. apply fill_shape.
    + split; cbn [view formElement]; [now destruct (view w) | exact Hl].
  - unfold submit, on_view. rewrite Hl, dispatch_submit_armed. cbn [snd view formElement].
    destruct (handleFormSubmit_outcomes (fresh_event (view w))) as (Hq & _ & _ & _ & Hways).
    cbv zeta in Hq, Hways.
    destruct (handleFormSubmit (fresh_event (view w))) as [r st']. cbn [fst snd] in *.
    assert (Hfresh : ramenMenuDiv (fresh_event (view w)) = ramenMenuDiv (view w) /\
                     newRamenForm (fresh_event (view w)) = newRamenForm (view w) /\
                     requests (fresh_event (view w)) = requests (view w))
      by now destruct (view w).
    destruct Hfresh as (Fm & Ff & Fq). rewrite Fm, Ff in Hways. rewrite Fq in Hq.
    destruct Hways as [(Hc & _ & Hf & Hm)|[(Hc & _ & _ & Hs & _ & i & n & Hm)
                                          |(Hc & _ & _ & Hf & i & n & Hm)]].
    + split.
      * exists [], []. rewrite !app_nil_r. cbn [view formElement].
        repeat split; auto; congruence.
      * split; cbn [view formElement]; [now rewrite Hm | exact Hl].
    + split.
      * exists [inert i n], []. rewrite !app_nil_r. cbn [view formElement].
        repeat split; auto.
      * split; cbn [view formElement]; [|exact Hl].
        rewrite Hm, forallb_app, Hw. reflexivity.
    + split.
      * exists [inert i n], []. rewrite !app_nil_r. cbn [view formElement].
        repeat split; auto; congruence.
      * split; cbn [view formElement]; [|exact Hl].
        rewrite Hm, forallb_app, Hw. reflexivity.
Qed.

Lemma run_follows server actions : forall w,
  armed w ->
  follows (length (filter is_submit actions)) (length (filter is_activate actions))
    w (fold_left (step server) actions w) /\
  armed (fold_left (step server) actions w).
Proof.
  induction actions as [|a rest IH]; intros w Hw; cbn [fold_left filter].
  - split; [apply follows_refl | exact Hw].
  - destruct (step_follows server a w Hw) as [Hstep Hw'].
    destruct (IH _ Hw') as [Hrest Hfinal]. split; [|exact Hfinal].
    pose proof (follows_trans _ _ _ _ _ _ _ Hstep Hrest) as H.
    destruct (is_submit a), (is_activate a); cbn [length]; exact H.
Qed.

Lemma main_armed server w :
  listeners (formElement w) = [] -> armed (snd (main server w)).
Proof.
  intros Hl. rewrite main_run. cbn [snd]. split; cbn [view formElement].
  - pose proof (displayRamens_run server (view w)) as H.
    destruct (collection _) as [items|]; [|destruct H as [e H]]; rewrite H.
    + destruct (view w); cbn. apply forallb_forall. intros e He.
      apply in_map_iff in He. now destruct He as (x & <- & _).
    + now destruct (view w).
  - unfold addEventListener. cbn [listeners]. now rewrite Hl.
Qed.

Lemma session_follows server w actions :
  listeners (formElement w) = [] ->
  follows (length (filter is_submit actions)) (length (filter is_activate actions))
    (snd (main server w)) (session server w actions) /\
  armed (session server w actions).
Proof.
  intros Hl. unfold session. apply run_follows. now apply main_armed.
Qed.

(** X19.  Through a whole visit the remote source is asked for the collection
    once, by [main], and after that for single items only, once per
    activation at most: typing and submitting send nothing. *)
Theorem session_requests server w actions :
  listeners (formElement w) = [] ->
  exists urls,
    requests (view (session server w actions))
    = (requests (view w) ++ (baseURL ++ "/ramens")%string :: urls)%list /\
    Forall item_address urls /\
    (length urls <= length (filter is_activate actions))%nat.
Proof.
  intros Hl.
  destruct (session_follows server w actions Hl)
    as [(locals & urls & _ & _ & _ & _ & Hr & Ha & Hn & _) _].
  exists urls. repeat split; try assumption.
  rewrite Hr, main_run. cbn [snd view].
  destruct (displayRamens_frame server (view w)) as (_ & Hq & _).
  cbv zeta in Hq. rewrite Hq. now rewrite <- app_assoc.
Qed.

Lemma session_requests_witness :
  exists urls,
    requests
      (view (session remote (fresh filled)
               [Submit; Activate 0; Fill 0 "Shio"; Submit; Activate 1]))
    = "http://localhost:3000/ramens" :: urls /\
    (length urls <= 2)%nat.
Proof.
  destruct (session_requests remote (fresh filled)
              [Submit; Activate 0; Fill 0 "Shio"; Submit; Activate 1] eq_refl)
    as (urls & Hr & _ & Hn).
  exists urls. split; [exact Hr | exact Hn].
Defined.



(** ** A visit, replies arriving when they arrive *)

Lemma bind_ret_unit (c : M unit) st : bind c (fun _ => ret tt) st = c st.
Proof. unfold bind, ret. now destruct (c st) as [[[]|e] st']. Qed.

Lemma fetch_received {A} server url (k : value -> M A) st :
  bind (fetch server url) (fun response => bind (checked_json response) k) st
  = bind (received (server url)) k (requesting url st).
Proof.
  unfold bind at 1 3. unfold fetch, received, requesting.
  now destruct (server url).
Qed.

(** Run with each reply there at once, the two halves of a handler are
    the handler. *)
Lemma displayRamens_at_once server st :
  displayRamens server st = (cs <- displayRamens_begins ;; settle_all server cs) st.
Proof.
  rewrite each_ramen_is_callback.
  rewrite (bind_normal displayRamens_begins _ st [Collection]
             (requesting (baseURL ++ "/ramens") st) eq_refl).
  cbn [settle_all]. rewrite bind_ret_unit.
  unfold settle, address, try_catch. now rewrite fetch_received.
Qed.

Lemma handleClick_at_once server target st :
  handleClick server target st
  = (cs <- handleClick_begins target ;; settle_all server cs) st.
Proof.
  unfold handleClick, handleClick_begins.
  destruct (dataset_id target) as [[|a r]|].
  - now destruct st.
  - rewrite (bind_normal _ _ st [Item (String a r)]
               (requesting (baseURL ++ "/ramens/" ++ String a r) st) eq_refl).
    cbn [settle_all]. rewrite bind_ret_unit.
    unfold settle, address, try_catch. now rewrite fetch_received.
  - now destruct st.
Qed.



















(** The submission made before the reply is lost, the one made after
    is kept. *)
Example visit_early_submission_lost :
  ramenMenuDiv
    (view (fst (visit remote (fresh filled)
                  [User Submit; Arrives Collection; User (Fill 0 "Shio"); User Submit])))
  = [shoyu_avatar; inert "" "Shio"].
Proof. reflexivity. Qed.
